(** * Badge recipes of django-badgify: the awarding process of [BaseRecipe]

    A shallow embedding of [badgify/recipe.py].  The recipe talks to a
    relational store through the ORM; the store, the log and the signals
    that were sent form the [World] every method runs in.  Methods are
    computations of the monad [M]: they read and write the world and end
    either with a value or with a Python exception. *)

From Stdlib Require Import ZArith List Ascii String Bool Lia.
From stdpp Require Import base list gmap sets strings.

Local Open Scope string_scope.
Local Open Scope Z_scope.

(** ** The tables *)

(** [django.db.DEFAULT_DB_ALIAS]. *)
Definition DEFAULT_DB_ALIAS : string := "default".

(** Modelled from the spec: the Badge model of [models.py], which is not
    among the sources.  A badge is identified by a unique slug and has a
    display name, an optional description, an image reference and a
    denormalized count of awarded users. *)
Record Badge : Type := mkBadge {
  badge_pk : Z;
  badge_name : string;
  badge_slug : string;
  badge_description : string;
  badge_image : string;
  badge_users_count : Z
}.

(** Modelled from the spec: a row of the Award table of [models.py], a
    join entity linking one user to one badge, unique per (user, badge). *)
Record AwardRow : Type := mkAwardRow {
  award_user_id : Z;
  award_badge_id : Z
}.

(** An [Award(user=..., badge=...)] object before it is saved; [badge] is
    whatever the [badge] property returned, possibly [None]. *)
Record Award : Type := mkAward {
  award_user : Z;
  award_badge : option Badge
}.

Record Database : Type := mkDatabase {
  badge_table : list Badge;
  award_table : list AwardRow;
  user_table : list Z
}.

(** Keyword arguments of [Badge.objects.create]; [None] for [kw_slug] and
    [kw_description] means that the key is absent. *)
Record BadgeKwargs : Type := mkBadgeKwargs {
  kw_name : option string;
  kw_image : string;
  kw_slug : option string;
  kw_description : option string
}.

Definition slug_taken (s : string) (d : Database) : bool :=
  existsb (fun b => String.eqb (badge_slug b) s) (badge_table d).

Definition next_pk (d : Database) : Z :=
  1 + fold_right Z.max 0 (map badge_pk (badge_table d)).

(** The slug under which the Badge model stores a badge ([models.py] is
    not among the sources).  A badge saved with a blank slug, which is
    also what a missing [slug] key leaves in the object, gets the
    slugified name; [slugify] stands for [django.utils.text.slugify]. *)
Definition stored_slug (slugify : string -> string) (n : string)
    (slug : option string) : string :=
  let s := default "" slug in
  if String.eqb s "" then slugify n else s.

(** The row that [Badge.objects.create] writes for the name [n]. *)
Definition new_badge (slugify : string -> string) (n : string)
    (kw : BadgeKwargs) (d : Database) : Badge :=
  {| badge_pk := next_pk d;
     badge_name := n;
     badge_slug := stored_slug slugify n (kw_slug kw);
     badge_description := default "" (kw_description kw);
     badge_image := kw_image kw;
     badge_users_count := 0 |}.

(** Modelled from the spec: INSERT into the Badge table of [models.py].
    Every badge has a display name and a slug that no other badge has:
    [None], the [IntegrityError] of the database, when the name is [None]
    or when the slug to store is already taken. *)
Definition insert_badge (slugify : string -> string) (kw : BadgeKwargs)
    (d : Database) : option (Badge * Database) :=
  match kw_name kw with
  | None => None
  | Some n =>
      let b := new_badge slugify n kw d in
      if slug_taken (badge_slug b) d then None
      else Some (b, {| badge_table := badge_table d ++ [b];
                       award_table := award_table d;
                       user_table := user_table d |})
  end.

Definition award_eqb (a b : AwardRow) : bool :=
  (award_user_id a =? award_user_id b) && (award_badge_id a =? award_badge_id b).

Definition award_exists (r : AwardRow) (rows : list AwardRow) : bool :=
  existsb (award_eqb r) rows.

(** INSERT of a list of rows into the Award table, all or nothing: [None]
    as soon as one row repeats a (user, badge) pair. *)
Fixpoint insert_awards (rs : list AwardRow) (rows : list AwardRow) : option (list AwardRow) :=
  match rs with
  | [] => Some rows
  | r :: rs' =>
      if award_exists r rows then None else insert_awards rs' (rows ++ [r])
  end.

(** UPDATE of the row with the badge's primary key, INSERT when no row has it. *)
Definition save_badge (b : Badge) (d : Database) : Database :=
  {| badge_table :=
       if existsb (fun r => badge_pk r =? badge_pk b) (badge_table d)
       then map (fun r => if badge_pk r =? badge_pk b then b else r) (badge_table d)
       else badge_table d ++ [b];
     award_table := award_table d;
     user_table := user_table d |}.

(** ** Writers that run concurrently with the recipe *)

Inductive Concurrent : Type :=
| OtherCreatesBadge (kw : BadgeKwargs)
| OtherCreatesAward (r : AwardRow).

Definition concurrent_write (slugify : string -> string) (d : Database)
    (c : Concurrent) : Database :=
  match c with
  | OtherCreatesBadge kw =>
      match insert_badge slugify kw d with Some (_, d') => d' | None => d end
  | OtherCreatesAward r =>
      match insert_awards [r] (award_table d) with
      | Some rows => {| badge_table := badge_table d; award_table := rows;
                        user_table := user_table d |}
      | None => d
      end
  end.

Definition concurrent_batch (slugify : string -> string) (cs : list Concurrent)
    (d : Database) : Database :=
  fold_left (concurrent_write slugify) cs d.

(** ** The log *)

Inductive level : Type := DEBUG | ERROR.

(** One constructor per format string of [recipe.py], with its arguments. *)
Inductive message : Type :=
| MsgAlreadyCreated (badge_slug : string)
| MsgCreated (badge_slug : string)
| MsgBadgeIntegrityError (slug : option string)
| MsgNoUsers (slug : option string)
| MsgDoesNotExist (slug : option string)
| MsgSyncing (slug : option string)
| MsgUpdatedCount (slug : option string) (old_value new_value : Z)
| MsgUpToDate (slug : option string) (new_value : Z)
| MsgAlreadyAwarded (slug : option string) (count : Z) (db : string)
| MsgUsersToCheck (slug : option string) (count : Z) (db : string)
| MsgNeedAward (slug : option string) (count : Z)
| MsgCreatingAwards (slug : option string) (actual_count total : Z) (db : string)
| MsgAwardsIntegrityError (slug : option string) (count : Z).

(** ** The world *)

(** [primary] is the database behind [DEFAULT_DB_ALIAS], where every query
    without [using] and every write goes; [replicas] are the databases
    behind the other aliases.  [pending] lists what concurrent writers
    commit on the primary, one batch per round trip of the recipe to a
    database; the empty list is a run without concurrent writers.
    [post_save] lists the instances for which the recipe itself has called
    [signals.post_save.send]; what Django dispatches of its own inside
    [Model.save] is not recorded.
    [skip_award_post_save_signal] is [settings.SKIP_AWARD_POST_SAVE_SIGNAL].
    [slugify] is [django.utils.text.slugify] as installed: Django is not
    part of the sources, so the function is a parameter of the world, the
    same throughout a run. *)
Record World : Type := mkWorld {
  primary : Database;
  replicas : string -> Database;
  pending : list (list Concurrent);
  log : list (level * message);
  post_save : list Award;
  skip_award_post_save_signal : bool;
  slugify : string -> string
}.

(** [django.db.connections[alias]]: the database a query routed with
    [using(alias)] runs on. *)
Definition connections (alias : string) (w : World) : Database :=
  if String.eqb alias DEFAULT_DB_ALIAS then primary w else replicas w alias.

Definition set_primary (d : Database) (w : World) : World :=
  {| primary := d; replicas := replicas w; pending := pending w; log := log w;
     post_save := post_save w;
     skip_award_post_save_signal := skip_award_post_save_signal w;
     slugify := slugify w |}.

Definition set_pending (p : list (list Concurrent)) (w : World) : World :=
  {| primary := primary w; replicas := replicas w; pending := p; log := log w;
     post_save := post_save w;
     skip_award_post_save_signal := skip_award_post_save_signal w;
     slugify := slugify w |}.

Definition add_log (e : level * message) (w : World) : World :=
  {| primary := primary w; replicas := replicas w; pending := pending w;
     log := log w ++ [e]; post_save := post_save w;
     skip_award_post_save_signal := skip_award_post_save_signal w;
     slugify := slugify w |}.

Definition add_post_save (a : Award) (w : World) : World :=
  {| primary := primary w; replicas := replicas w; pending := pending w;
     log := log w; post_save := post_save w ++ [a];
     skip_award_post_save_signal := skip_award_post_save_signal w;
     slugify := slugify w |}.

(** ** Computations *)

Inductive exn : Type :=
| IntegrityError | DoesNotExist | TypeError | NameError | AttributeError
| NotImplementedError | ValueError.

Definition exn_eqb (a b : exn) : bool :=
  match a, b with
  | IntegrityError, IntegrityError | DoesNotExist, DoesNotExist
  | TypeError, TypeError | NameError, NameError
  | AttributeError, AttributeError
  | NotImplementedError, NotImplementedError
  | ValueError, ValueError => true
  | _, _ => false
  end.

Inductive outcome (A : Type) : Type :=
| Ret (a : A)
| Raise (e : exn).
Arguments Ret {A} a.
Arguments Raise {A} e.

Definition M (A : Type) : Type := World -> outcome A * World.

Definition ret {A} (a : A) : M A := fun w => (Ret a, w).

Definition raise {A} (e : exn) : M A := fun w => (Raise e, w).

Definition bind {A B} (m : M A) (k : A -> M B) : M B :=
  fun w =>
    match m w with
    | (Ret a, w') => k a w'
    | (Raise e, w') => (Raise e, w')
    end.

(** A result computed without the world, as a computation. *)
Definition of_outcome {A} (o : outcome A) : M A := fun w => (o, w).

(** [try: m except e: h]. *)
Definition try_except {A} (m : M A) (e : exn) (h : M A) : M A :=
  fun w =>
    match m w with
    | (Ret a, w') => (Ret a, w')
    | (Raise e', w') => if exn_eqb e' e then h w' else (Raise e', w')
    end.

Declare Scope recipe_scope.
Delimit Scope recipe_scope with recipe.
Notation "x <- m ;; k" := (bind m (fun x => k))
  (at level 100, m at next level, k at level 200, right associativity) : recipe_scope.
Local Open Scope recipe_scope.

Fixpoint mapM {A B} (f : A -> M B) (l : list A) : M (list B) :=
  match l with
  | [] => ret []
  | x :: l' => y <- f x ;; ys <- mapM f l' ;; ret (y :: ys)
  end.

Fixpoint forM_ {A} (l : list A) (f : A -> M unit) : M unit :=
  match l with
  | [] => ret tt
  | x :: l' => _ <- f x ;; forM_ l' f
  end.

(** ** The ORM calls of the recipe *)

(** One round trip to a database: the next batch of concurrent writes is
    committed on the primary before the recipe's own query runs. *)
Definition round_trip : M unit :=
  fun w =>
    match pending w with
    | [] => (Ret tt, w)
    | cs :: rest =>
        (Ret tt,
         set_pending rest
           (set_primary (concurrent_batch (slugify w) cs (primary w)) w))
    end.

Definition read {A} (f : World -> A) : M A := fun w => (Ret (f w), w).

Definition logger_debug (m : message) : M unit :=
  fun w => (Ret tt, add_log (DEBUG, m) w).

Definition logger_error (m : message) : M unit :=
  fun w => (Ret tt, add_log (ERROR, m) w).

Definition find_badge (slug : option string) (d : Database) : option Badge :=
  match slug with
  | None => None
  | Some s => find (fun b => String.eqb (badge_slug b) s) (badge_table d)
  end.

(** [Badge.objects.get(slug=slug)], on the default database. *)
Definition Badge_objects_get (slug : option string) : M Badge :=
  _ <- round_trip ;;
  found <- read (fun w => find_badge slug (primary w)) ;;
  match found with
  | Some b => ret b
  | None => raise DoesNotExist
  end.

(** [Badge.objects.create] with the given keyword arguments, on the
    default database. *)
Definition Badge_objects_create (kwargs : BadgeKwargs) : M Badge :=
  _ <- round_trip ;;
  fun w =>
    match insert_badge (slugify w) kwargs (primary w) with
    | Some (b, d) => (Ret b, set_primary d w)
    | None => (Raise IntegrityError, w)
    end.

(** [badge.save()] of a badge that was loaded from the database: the
    UPDATE of its row.  The signals that Django dispatches around the
    write are not among those the world records. *)
Definition Badge_save (b : Badge) : M unit :=
  _ <- round_trip ;;
  fun w => (Ret tt, set_primary (save_badge b (primary w)) w).

(** The rows of [badge.users]: the users joined to the badge through the
    Award table, on the database the badge was loaded from. *)
Definition awarded_users (b : Badge) (d : Database) : list Z :=
  map award_user_id
    (List.filter (fun r => (award_badge_id r =? badge_pk b)
                      && existsb (Z.eqb (award_user_id r)) (user_table d))
            (award_table d)).

(** [badge.users.values_list('id', flat=True)], evaluated. *)
Definition Badge_users_values_list_id (b : Badge) : M (list Z) :=
  _ <- round_trip ;;
  read (fun w => awarded_users b (primary w)).

(** [badge.users.count()]. *)
Definition Badge_users_count (b : Badge) : M Z :=
  _ <- round_trip ;;
  read (fun w => Z.of_nat (length (awarded_users b (primary w)))).

(** A lazy query for user identifiers, as the [user_ids] property of a
    concrete recipe returns: what it selects depends on the database it
    is evaluated on. *)
Definition QuerySet : Type := Database -> list Z.

(** Evaluation of a query set on the database behind [alias]. *)
Definition QuerySet_fetch (qs : QuerySet) (alias : string) : M (list Z) :=
  _ <- round_trip ;;
  read (fun w => qs (connections alias w)).

(** [User.objects.using(alias).filter(id__in=ids)], evaluated. *)
Definition User_objects_filter_id_in (alias : string) (ids : list Z) : M (list Z) :=
  _ <- round_trip ;;
  read (fun w => List.filter (fun u => existsb (Z.eqb u) ids)
                        (user_table (connections alias w))).

Definition award_row (a : Award) : option AwardRow :=
  match award_badge a with
  | Some b => Some {| award_user_id := award_user a; award_badge_id := badge_pk b |}
  | None => None
  end.

Fixpoint award_rows (objects : list Award) : option (list AwardRow) :=
  match objects with
  | [] => Some []
  | a :: rest =>
      match award_row a, award_rows rest with
      | Some r, Some rs => Some (r :: rs)
      | _, _ => None
      end
  end.

(** [Award.objects.bulk_create(objects, batch_size=...)]: one transaction
    on the default database; an award without badge or a repeated
    (user, badge) pair aborts it with [IntegrityError]. *)
Definition Award_objects_bulk_create (objects : list Award) (batch_size : Z) : M unit :=
  _ <- round_trip ;;
  fun w =>
    match award_rows objects with
    | None => (Raise IntegrityError, w)
    | Some rs =>
        match insert_awards rs (award_table (primary w)) with
        | None => (Raise IntegrityError, w)
        | Some rows =>
            (Ret tt, set_primary {| badge_table := badge_table (primary w);
                                    award_table := rows;
                                    user_table := user_table (primary w) |} w)
        end
    end.

(** [signals.post_save.send(sender=obj.__class__, instance=obj, created=True)]. *)
Definition signals_post_save_send (obj : Award) : M unit :=
  fun w => (Ret tt, add_post_save obj w).

(** ** [badgify.utils.chunks] *)

Fixpoint chunks_fuel {A} (fuel : nat) (l : list A) (n : nat) : list (list A) :=
  match fuel with
  | O => []
  | S fuel' =>
      match l with
      | [] => []
      | _ :: _ => take n l :: chunks_fuel fuel' (drop n l) n
      end
  end.

(** Modelled from the spec: [chunks] of [utils.py], which is not among the
    sources.  It partitions the identifiers into consecutive chunks of the
    fixed size [n], the last one holding what remains.  The spec fixes
    nothing for a size that is not positive; there the generator behaves
    as its loop over [range(0, len(l), n)] does: a size of 0 ends with
    [ValueError] when the first chunk is asked for, a negative size
    yields no chunk. *)
Definition chunks {A} (l : list A) (n : Z) : outcome (list (list A)) :=
  if n =? 0 then Raise ValueError
  else if n <? 0 then Ret []
  else Ret (chunks_fuel (length l) l (Z.to_nat n)).

(** ** [BaseRecipe] *)

(** The attributes and properties a concrete recipe defines.  [None] is
    Python's [None]: the value of [name], [slug] and [description] in
    [BaseRecipe], and what the [user_ids] property of [BaseRecipe]
    returns.  [image = None] stands for a recipe that does not override
    the [image] property. *)
Record Recipe : Type := mkRecipe {
  name : option string;
  slug : option string;
  description : option string;
  db_read : string;
  max_awards_per_create : Z;
  image : option string;
  user_ids : option QuerySet
}.

Definition image_property (self : Recipe) : M string :=
  match image self with
  | Some i => ret i
  | None => raise NotImplementedError
  end.

Definition badge (self : Recipe) : M (option Badge) :=
  try_except
    (obj <- Badge_objects_get (slug self) ;; ret (Some obj))
    DoesNotExist
    (ret None).

Definition create_badge (self : Recipe) : M (option Badge * bool * bool) :=
  badge0 <- badge self ;;
  match badge0 with
  | Some b =>
      _ <- logger_debug (MsgAlreadyCreated (badge_slug b)) ;;
      ret (Some b, false, false)
  | None =>
      try_except
        (img <- image_property self ;;
         let kwargs := {| kw_name := name self; kw_image := img;
                          kw_slug := slug self;
                          kw_description := description self |} in
         b <- Badge_objects_create kwargs ;;
         _ <- logger_debug (MsgCreated (badge_slug b)) ;;
         ret (Some b, true, false))
        IntegrityError
        (_ <- logger_debug (MsgBadgeIntegrityError (slug self)) ;;
         ret (None, false, true))
  end.

(** Truth value of [self.user_ids]: [None] is false, a query set is
    evaluated (on the default database) and is true when it has a row. *)
Definition user_ids_truth (self : Recipe) : M bool :=
  match user_ids self with
  | None => ret false
  | Some qs =>
      rows <- QuerySet_fetch qs DEFAULT_DB_ALIAS ;;
      ret (match rows with [] => false | _ :: _ => true end)
  end.

Definition can_perform_awarding (self : Recipe) : M bool :=
  t <- user_ids_truth self ;;
  if negb t then
    _ <- logger_debug (MsgNoUsers (slug self)) ;;
    ret false
  else
    b <- badge self ;;
    match b with
    | None =>
        _ <- logger_debug (MsgDoesNotExist (slug self)) ;;
        ret false
    | Some _ => ret true
    end.

(** First component of what [update_badge_users_count] returns. *)
Inductive badge_or_slug : Type :=
| TheSlug (s : option string)
| TheBadge (b : Badge).

Definition set_users_count (b : Badge) (n : Z) : Badge :=
  {| badge_pk := badge_pk b; badge_name := badge_name b;
     badge_slug := badge_slug b; badge_description := badge_description b;
     badge_image := badge_image b; badge_users_count := n |}.

Definition update_badge_users_count (self : Recipe) : M (badge_or_slug * bool) :=
  _ <- logger_debug (MsgSyncing (slug self)) ;;
  found <- badge self ;;
  match found with
  | None =>
      _ <- logger_debug (MsgDoesNotExist (slug self)) ;;
      ret (TheSlug (slug self), false)
  | Some b =>
      let old_value := badge_users_count b in
      new_value <- Badge_users_count b ;;
      r <- (if negb (old_value =? new_value) then
              let b' := set_users_count b new_value in
              _ <- Badge_save b' ;;
              ret (b', true)
            else ret (b, false)) ;;
      let '(b, updated) := r in
      _ <- (if updated : bool then
              logger_debug (MsgUpdatedCount (slug self) old_value new_value)
            else
              logger_debug (MsgUpToDate (slug self) new_value)) ;;
      ret (TheBadge b, updated)
  end.

Definition get_already_awarded_user_ids (self : Recipe) : M (list Z) :=
  found <- badge self ;;
  match found with
  | None => raise AttributeError
  | Some b =>
      already_awarded_ids <- Badge_users_values_list_id b ;;
      let already_awarded_ids_count := Z.of_nat (length already_awarded_ids) in
      _ <- logger_debug
             (MsgAlreadyAwarded (slug self) already_awarded_ids_count (db_read self)) ;;
      ret already_awarded_ids
  end.

Definition get_current_user_ids (self : Recipe) : M (list Z) :=
  match user_ids self with
  | None => raise AttributeError
  | Some qs =>
      current_ids <- QuerySet_fetch qs (db_read self) ;;
      let current_ids_count := Z.of_nat (length current_ids) in
      _ <- logger_debug
             (MsgUsersToCheck (slug self) current_ids_count (db_read self)) ;;
      ret current_ids
  end.

Definition get_unawarded_user_ids (self : Recipe) : M (list Z * Z) :=
  already_awarded_ids <- get_already_awarded_user_ids self ;;
  current_ids <- get_current_user_ids self ;;
  let unawarded_ids :=
    elements ((list_to_set current_ids : gset Z) ∖ list_to_set already_awarded_ids) in
  let unawarded_ids_count := Z.of_nat (length unawarded_ids) in
  _ <- logger_debug (MsgNeedAward (slug self) unawarded_ids_count) ;;
  ret (unawarded_ids, unawarded_ids_count).

(** The body of [_bulk_create_awards], given what the name [objects]
    evaluates to. *)
Definition bulk_create_awards_body (self : Recipe) (objects : M (list Award)) : M unit :=
  objs <- objects ;;
  let count := Z.of_nat (length objs) in
  try_except
    (_ <- Award_objects_bulk_create objs (max_awards_per_create self) ;;
     skip <- read skip_award_post_save_signal ;;
     if negb skip then forM_ objs signals_post_save_send else ret tt)
    IntegrityError
    (logger_error (MsgAwardsIntegrityError (slug self) count)).

(** [self._bulk_create_awards] called with the positional arguments
    [args].  The method is declared with the
    single parameter [self]: a call that passes anything more fails with
    [TypeError] before the body runs, and in the body the name [objects]
    is bound neither locally nor in the module, so that looking it up
    raises [NameError]. *)
Definition _bulk_create_awards (self : Recipe) (args : list (list Award)) : M unit :=
  match args with
  | [] => bulk_create_awards_body self (raise NameError)
  | _ :: _ => raise TypeError
  end.

(** The loop of [save_award_objects] over the chunks still to be handled. *)
Fixpoint save_award_chunks (self : Recipe) (unawarded_ids_count : Z)
    (done_ids : Z) (todo : list (list Z)) : M unit :=
  match todo with
  | [] => ret tt
  | ids :: todo' =>
      let done_ids := done_ids + max_awards_per_create self in
      let actual_count :=
        if done_ids <=? unawarded_ids_count then done_ids else unawarded_ids_count in
      _ <- logger_debug (MsgCreatingAwards (slug self) actual_count
                           unawarded_ids_count (db_read self)) ;;
      users <- User_objects_filter_id_in (db_read self) ids ;;
      objects <- mapM (fun user => b <- badge self ;;
                                   ret {| award_user := user; award_badge := b |})
                      users ;;
      _ <- _bulk_create_awards self [objects] ;;
      save_award_chunks self unawarded_ids_count done_ids todo'
  end.

Definition save_award_objects (self : Recipe) : M unit :=
  r <- get_unawarded_user_ids self ;;
  let '(unawarded_ids, unawarded_ids_count) := r in
  match unawarded_ids with
  | [] => ret tt
  | _ :: _ =>
      todo <- of_outcome (chunks unawarded_ids (max_awards_per_create self)) ;;
      save_award_chunks self unawarded_ids_count 0 todo
  end.

Definition create_awards (self : Recipe) : M unit :=
  ok <- can_perform_awarding self ;;
  if ok : bool then save_award_objects self else ret tt.

(** ** What a method may leave behind *)

Definition add_logs (es : list (level * message)) (w : World) : World :=
  fold_left (fun w e => add_log e w) es w.

Definition set_replicas (r : string -> Database) (w : World) : World :=
  {| primary := primary w; replicas := r; pending := pending w; log := log w;
     post_save := post_save w;
     skip_award_post_save_signal := skip_award_post_save_signal w;
     slugify := slugify w |}.

(** The world once the next round trip has let the concurrent writers in. *)
Definition after_round_trip (w : World) : World := snd (round_trip w).

(** [only_read w w']: the world [w'] is [w] after some round trips, in
    which concurrent writers may have committed, and some log entries.
    This is all that a method which reads and logs, but never writes,
    leaves behind. *)
Definition only_read (w w' : World) : Prop :=
  ∃ k es, w' = add_logs es (Nat.iter k after_round_trip w).

(** A computation that never writes. *)
Definition reader {A} (m : M A) : Prop := ∀ w, only_read w (snd (m w)).

(** [create_badge] hands back the badge object that the database holds
    under the recipe's slug when it returns. *)
Definition returns_existing_badge (self : Recipe) (w : World) : Prop :=
  ∃ b created failed w',
    create_badge self w = (Ret (Some b, created, failed), w')
    ∧ find_badge (slug self) (primary w') = Some b.

(** ** A recipe and some worlds *)

(** [User.objects.values_list('id', flat=True)]. *)
Definition every_user : QuerySet := user_table.

Definition pioneer (db : string) (size : Z) : Recipe :=
  {| name := Some "Pioneer"; slug := Some "pioneer"; description := None;
     db_read := db; max_awards_per_create := size;
     image := Some "pioneer.png"; user_ids := Some every_user |}.

Definition pioneer_badge (count : Z) : Badge :=
  {| badge_pk := 1; badge_name := "Pioneer"; badge_slug := "pioneer";
     badge_description := ""; badge_image := "pioneer.png";
     badge_users_count := count |}.

(** What [slugify] makes of a name of ASCII letters, digits and single
    spaces: lower case, with a hyphen for each space. *)
Definition lower (c : Ascii.ascii) : Ascii.ascii :=
  let n := Ascii.N_of_ascii c in
  if ((65 <=? n) && (n <=? 90))%N then Ascii.ascii_of_N (n + 32) else c.

Fixpoint ascii_slugify (s : string) : string :=
  match s with
  | EmptyString => EmptyString
  | String c s' =>
      String (if Ascii.eqb c " " then "-"%char else lower c) (ascii_slugify s')
  end.

Definition world (p r : Database) (others : list (list Concurrent)) : World :=
  {| primary := p; replicas := fun _ => r; pending := others; log := [];
     post_save := []; skip_award_post_save_signal := false;
     slugify := ascii_slugify |}.

(** Another process creating the badge of the same slug. *)
Definition other_pioneer : Concurrent :=
  OtherCreatesBadge {| kw_name := Some "Pioneer"; kw_image := "other.png";
                       kw_slug := Some "pioneer"; kw_description := None |}.

Definition other_pioneer_badge : Badge :=
  {| badge_pk := 1; badge_name := "Pioneer"; badge_slug := "pioneer";
     badge_description := ""; badge_image := "other.png";
     badge_users_count := 0 |}.

(** ** Chunking *)

Section Chunks.
Context {A : Type}.
Implicit Types (l : list A) (n fuel : nat).

Lemma chunks_fuel_concat fuel l n :
  (0 < n)%nat → (length l ≤ fuel)%nat → concat (chunks_fuel fuel l n) = l.
Proof.
  intros Hn. revert l.
  induction fuel as [|fuel IH]; intros l Hl.
  - destruct l; [reflexivity | simpl in Hl; lia].
  - destruct l as [|x l']; [reflexivity|].
    cbn [chunks_fuel concat].
    rewrite IH.
    + apply take_drop.
    + rewrite length_drop. simpl in *. lia.
Qed.

Lemma chunks_fuel_sizes fuel l n :
  (0 < n)%nat →
  Forall (fun c => (0 < length c ≤ n)%nat) (chunks_fuel fuel l n).
Proof.
  intros Hn. revert l.
  induction fuel as [|fuel IH]; intros l; [constructor|].
  destruct l as [|x l']; [constructor|].
  cbn [chunks_fuel]. constructor; [|apply IH].
  rewrite length_take. simpl. lia.
Qed.

Lemma chunks_fuel_cons fuel x l n :
  chunks_fuel (S fuel) (x :: l) n
  = take n (x :: l) :: chunks_fuel fuel (drop n (x :: l)) n.
Proof. reflexivity. Qed.
End Chunks.

Lemma chunks_positive {A} (l : list A) (n : Z) :
  0 < n → chunks l n = Ret (chunks_fuel (length l) l (Z.to_nat n)).
Proof.
  intros Hn. unfold chunks.
  destruct (Z.eqb_spec n 0) as [?|_]; [lia|].
  destruct (Z.ltb_spec n 0) as [?|_]; [lia|]. reflexivity.
Qed.

Lemma chunks_zero {A} (l : list A) : chunks l 0 = Raise ValueError.
Proof. reflexivity. Qed.

Lemma chunks_negative {A} (l : list A) (n : Z) : n < 0 → chunks l n = Ret [].
Proof.
  intros Hn. unfold chunks.
  destruct (Z.eqb_spec n 0) as [?|_]; [lia|].
  destruct (Z.ltb_spec n 0) as [_|?]; [reflexivity | lia].
Qed.

(** The chunks, put end to end, are the list that was chunked. *)
Lemma chunks_concat {A} (l : list A) (n : Z) :
  0 < n → ∃ cs, chunks l n = Ret cs ∧ concat cs = l.
Proof.
  intros Hn. rewrite chunks_positive by assumption.
  eexists. split; [reflexivity|]. apply chunks_fuel_concat; lia.
Qed.

(** No chunk is empty and none is longer than the configured size. *)
Lemma chunks_sizes {A} (l : list A) (n : Z) :
  0 < n →
  ∃ cs, chunks l n = Ret cs
        ∧ Forall (fun c => 0 < Z.of_nat (length c) ≤ n) cs.
Proof.
  intros Hn. rewrite chunks_positive by assumption.
  eexists. split; [reflexivity|].
  eapply Forall_impl; [apply (chunks_fuel_sizes _ _ (Z.to_nat n)); lia|].
  simpl. intros c Hc. lia.
Qed.

(** A list with an element yields a first chunk. *)
Lemma chunks_nonempty {A} (x : A) (l : list A) (n : Z) :
  0 < n →
  chunks (x :: l) n
  = Ret (take (Z.to_nat n) (x :: l)
           :: chunks_fuel (length l) (drop (Z.to_nat n) (x :: l)) (Z.to_nat n)).
Proof. intros Hn. rewrite chunks_positive by assumption. reflexivity. Qed.

(** ** Round trips and log entries *)

Lemma round_trip_run w : round_trip w = (Ret tt, after_round_trip w).
Proof. unfold after_round_trip, round_trip. destruct (pending w); reflexivity. Qed.

Lemma after_round_trip_quiet w : pending w = [] → after_round_trip w = w.
Proof. intros H. unfold after_round_trip, round_trip. rewrite H. reflexivity. Qed.

Lemma after_round_trip_add_log e w :
  after_round_trip (add_log e w) = add_log e (after_round_trip w).
Proof.
  unfold after_round_trip, round_trip. cbn [add_log pending].
  destruct (pending w); reflexivity.
Qed.

Lemma after_round_trip_set_replicas r w :
  after_round_trip (set_replicas r w) = set_replicas r (after_round_trip w).
Proof.
  unfold after_round_trip, round_trip. cbn [set_replicas pending].
  destruct (pending w); reflexivity.
Qed.

Lemma add_logs_cons e es w : add_logs (e :: es) w = add_logs es (add_log e w).
Proof. reflexivity. Qed.

Lemma add_logs_app es es' w : add_logs es' (add_logs es w) = add_logs (es ++ es') w.
Proof. unfold add_logs. rewrite fold_left_app. reflexivity. Qed.

Lemma add_logs_snoc es e w : add_log e (add_logs es w) = add_logs (es ++ [e]) w.
Proof. apply (add_logs_app es [e]). Qed.

Lemma after_round_trip_add_logs es w :
  after_round_trip (add_logs es w) = add_logs es (after_round_trip w).
Proof.
  revert w. induction es as [|e es IH]; intros w; [reflexivity|].
  rewrite !add_logs_cons, IH, after_round_trip_add_log. reflexivity.
Qed.

Lemma round_trips_add_logs k es w :
  Nat.iter k after_round_trip (add_logs es w)
  = add_logs es (Nat.iter k after_round_trip w).
Proof.
  induction k as [|k IH]; [reflexivity|].
  rewrite !Nat.iter_succ, IH. apply after_round_trip_add_logs.
Qed.

Lemma round_trips_quiet k w :
  pending w = [] → Nat.iter k after_round_trip w = w.
Proof.
  intros H. induction k as [|k IH]; [reflexivity|].
  rewrite Nat.iter_succ, IH. apply after_round_trip_quiet, H.
Qed.

Lemma primary_add_logs es w : primary (add_logs es w) = primary w.
Proof.
  revert w. induction es as [|e es IH]; intros w; [reflexivity|].
  rewrite add_logs_cons, IH. reflexivity.
Qed.

Lemma post_save_add_logs es w : post_save (add_logs es w) = post_save w.
Proof.
  revert w. induction es as [|e es IH]; intros w; [reflexivity|].
  rewrite add_logs_cons, IH. reflexivity.
Qed.

Lemma log_add_logs es w : log (add_logs es w) = (log w ++ es)%list.
Proof.
  revert w. induction es as [|e es IH]; intros w.
  - symmetry. apply app_nil_r.
  - rewrite add_logs_cons, IH. cbn [add_log log].
    rewrite <- app_assoc. reflexivity.
Qed.

(** ** Computations that never write *)

Lemma only_read_refl w : only_read w w.
Proof. exists 0%nat, []. reflexivity. Qed.

Lemma only_read_trans w1 w2 w3 :
  only_read w1 w2 → only_read w2 w3 → only_read w1 w3.
Proof.
  intros (k & es & ->) (k' & es' & ->).
  exists (k' + k)%nat, (es ++ es')%list.
  rewrite round_trips_add_logs, add_logs_app, Nat.iter_add. reflexivity.
Qed.

Lemma only_read_add_log e w : only_read w (add_log e w).
Proof. exists 0%nat, [e]. reflexivity. Qed.

Lemma only_read_after_round_trip w : only_read w (after_round_trip w).
Proof. exists 1%nat, []. reflexivity. Qed.

(** Without concurrent writers, a method that never writes leaves the
    world as it found it, up to the log. *)
Lemma only_read_quiet w w' :
  pending w = [] → only_read w w' → ∃ es, w' = add_logs es w.
Proof.
  intros H (k & es & ->). exists es. rewrite round_trips_quiet by assumption.
  reflexivity.
Qed.

Lemma reader_ret {A} (a : A) : reader (ret a).
Proof. intros w. apply only_read_refl. Qed.

Lemma reader_raise {A} e : reader (@raise A e).
Proof. intros w. apply only_read_refl. Qed.

Lemma reader_bind {A B} (m : M A) (k : A → M B) :
  reader m → (∀ a, reader (k a)) → reader (bind m k).
Proof.
  intros Hm Hk w. unfold bind. specialize (Hm w).
  destruct (m w) as [[a|e] w']; cbn [snd] in *; [|exact Hm].
  eapply only_read_trans; [exact Hm | apply Hk].
Qed.

Lemma reader_try_except {A} (m : M A) e h :
  reader m → reader h → reader (try_except m e h).
Proof.
  intros Hm Hh w. unfold try_except. specialize (Hm w).
  destruct (m w) as [[a|e'] w']; cbn [snd] in *; [exact Hm|].
  destruct (exn_eqb e' e); [|exact Hm].
  eapply only_read_trans; [exact Hm | apply Hh].
Qed.

Lemma reader_round_trip : reader round_trip.
Proof. intros w. rewrite round_trip_run. apply only_read_after_round_trip. Qed.

Lemma reader_read {A} (f : World → A) : reader (read f).
Proof. intros w. apply only_read_refl. Qed.

Lemma reader_of_outcome {A} (o : outcome A) : reader (of_outcome o).
Proof. intros w. apply only_read_refl. Qed.

Lemma reader_logger_debug m : reader (logger_debug m).
Proof. intros w. apply only_read_add_log. Qed.

Create HintDb reader.
#[local] Hint Resolve reader_ret reader_raise reader_try_except reader_round_trip
  reader_read reader_logger_debug : reader.
#[local] Hint Extern 2 (reader (bind _ _)) => apply reader_bind; [|intros] : reader.
#[local] Hint Extern 3 (reader (match ?x with _ => _ end)) => destruct x : reader.

Lemma reader_badge self : reader (badge self).
Proof. unfold badge, Badge_objects_get. auto 10 with reader. Qed.

Lemma reader_get_already_awarded_user_ids self :
  reader (get_already_awarded_user_ids self).
Proof.
  unfold get_already_awarded_user_ids, Badge_users_values_list_id.
  pose proof (reader_badge self). auto 10 with reader.
Qed.

Lemma reader_get_current_user_ids self : reader (get_current_user_ids self).
Proof. unfold get_current_user_ids, QuerySet_fetch. auto 10 with reader. Qed.

Lemma reader_get_unawarded_user_ids self : reader (get_unawarded_user_ids self).
Proof.
  unfold get_unawarded_user_ids.
  pose proof (reader_get_already_awarded_user_ids self).
  pose proof (reader_get_current_user_ids self).
  auto 10 with reader.
Qed.

(** ** What each call does, in any world *)

Lemma badge_run self w :
  badge self w
  = (Ret (find_badge (slug self) (primary (after_round_trip w))), after_round_trip w).
Proof.
  unfold badge, try_except, Badge_objects_get, bind, read.
  rewrite round_trip_run.
  destruct (find_badge (slug self) (primary (after_round_trip w))); reflexivity.
Qed.

Lemma QuerySet_fetch_run qs alias w :
  QuerySet_fetch qs alias w
  = (Ret (qs (connections alias (after_round_trip w))), after_round_trip w).
Proof. unfold QuerySet_fetch, bind, read. rewrite round_trip_run. reflexivity. Qed.

Lemma User_objects_filter_id_in_run alias ids w :
  User_objects_filter_id_in alias ids w
  = (Ret (List.filter (fun u => existsb (Z.eqb u) ids)
                      (user_table (connections alias (after_round_trip w)))),
     after_round_trip w).
Proof.
  unfold User_objects_filter_id_in, bind, read. rewrite round_trip_run. reflexivity.
Qed.

Lemma Badge_users_count_run b w :
  Badge_users_count b w
  = (Ret (Z.of_nat (length (awarded_users b (primary (after_round_trip w))))),
     after_round_trip w).
Proof. unfold Badge_users_count, bind, read. rewrite round_trip_run. reflexivity. Qed.

Lemma Badge_users_values_list_id_run b w :
  Badge_users_values_list_id b w
  = (Ret (awarded_users b (primary (after_round_trip w))), after_round_trip w).
Proof.
  unfold Badge_users_values_list_id, bind, read. rewrite round_trip_run. reflexivity.
Qed.

Lemma Badge_save_run b w :
  Badge_save b w
  = (Ret tt, set_primary (save_badge b (primary (after_round_trip w)))
                         (after_round_trip w)).
Proof. unfold Badge_save, bind. rewrite round_trip_run. reflexivity. Qed.

(** Building the award objects of a chunk returns and never writes. *)
Lemma award_objects_run self users w :
  ∃ objects w',
    mapM (fun user => b <- badge self ;;
                      ret {| award_user := user; award_badge := b |}) users w
    = (Ret objects, w')
    ∧ only_read w w'.
Proof.
  revert w. induction users as [|u users IH]; intros w.
  - exists [], w. split; [reflexivity | apply only_read_refl].
  - cbn [mapM]. unfold bind at 1 2. rewrite badge_run.
    unfold ret at 1. unfold bind at 1.
    destruct (IH (after_round_trip w)) as (objects & w' & -> & Hread).
    eexists _, _. split; [reflexivity|].
    eapply only_read_trans; [apply only_read_after_round_trip | exact Hread].
Qed.

Lemma bulk_create_awards_with_argument self objects w :
  _bulk_create_awards self [objects] w = (Raise TypeError, w).
Proof. reflexivity. Qed.

Lemma bulk_create_awards_without_argument self w :
  _bulk_create_awards self [] w = (Raise NameError, w).
Proof. reflexivity. Qed.

(** However it is called, [_bulk_create_awards] ends with an exception
    and leaves the world as it was: the insertion is never reached. *)
Lemma bulk_create_awards_never_inserts self args w :
  ∃ e, _bulk_create_awards self args w = (Raise e, w)
       ∧ (e = TypeError ∨ e = NameError).
Proof.
  destruct args as [|objects args].
  - exists NameError. split; [reflexivity | right; reflexivity].
  - exists TypeError. split; [reflexivity | left; reflexivity].
Qed.

(** The first chunk already ends the loop of [save_award_objects], before
    anything is written. *)
Lemma save_award_chunks_run self total done_ids ids todo w :
  ∃ w', save_award_chunks self total done_ids (ids :: todo) w = (Raise TypeError, w')
        ∧ only_read w w'.
Proof.
  cbn [save_award_chunks].
  unfold bind at 1. unfold logger_debug at 1.
  unfold bind at 1. rewrite User_objects_filter_id_in_run.
  unfold bind at 1.
  match goal with
  | |- context [mapM ?f ?users ?w0] =>
      destruct (award_objects_run self users w0) as (objects & w' & -> & Hread)
  end.
  unfold bind at 1. rewrite bulk_create_awards_with_argument.
  eexists. split; [reflexivity|].
  eapply only_read_trans; [apply only_read_add_log|].
  eapply only_read_trans; [apply only_read_after_round_trip | exact Hread].
Qed.

Lemma create_badge_run self w :
  create_badge self w
  = let w1 := after_round_trip w in
    match find_badge (slug self) (primary w1) with
    | Some b =>
        (Ret (Some b, false, false),
         add_log (DEBUG, MsgAlreadyCreated (badge_slug b)) w1)
    | None =>
        match image self with
        | None => (Raise NotImplementedError, w1)
        | Some img =>
            let kwargs := {| kw_name := name self; kw_image := img;
                             kw_slug := slug self;
                             kw_description := description self |} in
            let w2 := after_round_trip w1 in
            match insert_badge (slugify w2) kwargs (primary w2) with
            | Some (b, d) =>
                (Ret (Some b, true, false),
                 add_log (DEBUG, MsgCreated (badge_slug b)) (set_primary d w2))
            | None =>
                (Ret (None, false, true),
                 add_log (DEBUG, MsgBadgeIntegrityError (slug self)) w2)
            end
        end
    end.
Proof.
  unfold create_badge. unfold bind at 1. rewrite badge_run. cbv zeta.
  destruct (find_badge (slug self) (primary (after_round_trip w))) as [b|];
    [reflexivity|].
  unfold try_except, image_property, bind.
  destruct (image self) as [img|]; [|reflexivity].
  unfold ret at 1. unfold Badge_objects_create, bind.
  rewrite round_trip_run.
  destruct (insert_badge _ _ (primary (after_round_trip (after_round_trip w))))
    as [[b d]|]; reflexivity.
Qed.

(** A uniqueness violation at the creation of the badge never leaves
    [create_badge] as an exception. *)
Lemma create_badge_never_raises_IntegrityError self w :
  fst (create_badge self w) ≠ Raise IntegrityError.
Proof.
  rewrite create_badge_run. cbv zeta.
  destruct (find_badge _ _); [discriminate|].
  destruct (image self); [|discriminate].
  destruct (insert_badge _ _ _) as [[b d]|]; discriminate.
Qed.

Lemma can_perform_awarding_run self w :
  can_perform_awarding self w
  = match user_ids self with
    | None => (Ret false, add_log (DEBUG, MsgNoUsers (slug self)) w)
    | Some qs =>
        let w1 := after_round_trip w in
        match qs (primary w1) with
        | [] => (Ret false, add_log (DEBUG, MsgNoUsers (slug self)) w1)
        | _ :: _ =>
            let w2 := after_round_trip w1 in
            match find_badge (slug self) (primary w2) with
            | None => (Ret false, add_log (DEBUG, MsgDoesNotExist (slug self)) w2)
            | Some _ => (Ret true, w2)
            end
        end
    end.
Proof.
  unfold can_perform_awarding, user_ids_truth, bind.
  destruct (user_ids self) as [qs|]; [|reflexivity].
  rewrite QuerySet_fetch_run. cbv zeta.
  change (connections DEFAULT_DB_ALIAS (after_round_trip w))
    with (primary (after_round_trip w)).
  destruct (qs (primary (after_round_trip w))); [reflexivity|].
  cbn [ret negb]. rewrite badge_run.
  destruct (find_badge (slug self) (primary (after_round_trip (after_round_trip w))));
    reflexivity.
Qed.

Lemma update_badge_users_count_run self w :
  update_badge_users_count self w
  = let w1 := after_round_trip (add_log (DEBUG, MsgSyncing (slug self)) w) in
    match find_badge (slug self) (primary w1) with
    | None =>
        (Ret (TheSlug (slug self), false),
         add_log (DEBUG, MsgDoesNotExist (slug self)) w1)
    | Some b =>
        let w2 := after_round_trip w1 in
        let live := Z.of_nat (length (awarded_users b (primary w2))) in
        if badge_users_count b =? live
        then (Ret (TheBadge b, false),
              add_log (DEBUG, MsgUpToDate (slug self) live) w2)
        else
          let w3 := after_round_trip w2 in
          (Ret (TheBadge (set_users_count b live), true),
           add_log (DEBUG, MsgUpdatedCount (slug self) (badge_users_count b) live)
             (set_primary (save_badge (set_users_count b live) (primary w3)) w3))
    end.
Proof.
  unfold update_badge_users_count.
  unfold bind at 1. unfold logger_debug at 1.
  unfold bind at 1. rewrite badge_run. cbv zeta.
  destruct (find_badge (slug self) _) as [b|]; [|reflexivity].
  unfold bind at 1. rewrite Badge_users_count_run.
  destruct (badge_users_count b =? _).
  - reflexivity.
  - cbn [negb]. unfold bind at 1 2. rewrite Badge_save_run. reflexivity.
Qed.

(** ** Runs without concurrent writers *)

Lemma can_perform_awarding_quiet self w :
  pending w = [] →
  can_perform_awarding self w
  = match user_ids self with
    | None => (Ret false, add_log (DEBUG, MsgNoUsers (slug self)) w)
    | Some qs =>
        match qs (primary w) with
        | [] => (Ret false, add_log (DEBUG, MsgNoUsers (slug self)) w)
        | _ :: _ =>
            match find_badge (slug self) (primary w) with
            | None => (Ret false, add_log (DEBUG, MsgDoesNotExist (slug self)) w)
            | Some _ => (Ret true, w)
            end
        end
    end.
Proof.
  intros H. rewrite can_perform_awarding_run. cbv zeta.
  rewrite !after_round_trip_quiet by assumption. reflexivity.
Qed.

Lemma update_badge_users_count_quiet self w :
  pending w = [] →
  update_badge_users_count self w
  = let w0 := add_log (DEBUG, MsgSyncing (slug self)) w in
    match find_badge (slug self) (primary w) with
    | None =>
        (Ret (TheSlug (slug self), false),
         add_log (DEBUG, MsgDoesNotExist (slug self)) w0)
    | Some b =>
        let live := Z.of_nat (length (awarded_users b (primary w))) in
        if badge_users_count b =? live
        then (Ret (TheBadge b, false),
              add_log (DEBUG, MsgUpToDate (slug self) live) w0)
        else (Ret (TheBadge (set_users_count b live), true),
              add_log (DEBUG, MsgUpdatedCount (slug self) (badge_users_count b) live)
                (set_primary (save_badge (set_users_count b live) (primary w)) w0))
    end.
Proof.
  intros H. rewrite update_badge_users_count_run. cbv zeta.
  repeat (rewrite after_round_trip_add_log, (after_round_trip_quiet w) by assumption).
  reflexivity.
Qed.

(** ** Saving a badge *)

Lemma find_save_badge s b b' rows :
  find (fun r => String.eqb (badge_slug r) s) rows = Some b →
  badge_slug b' = badge_slug b →
  badge_pk b' = badge_pk b →
  find (fun r => String.eqb (badge_slug r) s)
       (map (fun r => if badge_pk r =? badge_pk b' then b' else r) rows)
  = Some b'.
Proof.
  intros Hfind Hslug Hpk.
  assert (Hs : String.eqb (badge_slug b') s = true).
  { apply find_some in Hfind as [_ Hb]. rewrite Hslug. exact Hb. }
  induction rows as [|r rows IH]; [discriminate|].
  cbn [find map] in *.
  destruct (String.eqb (badge_slug r) s) eqn:Hr.
  - injection Hfind as ->. rewrite Hpk, Z.eqb_refl, Hs. reflexivity.
  - destruct (badge_pk r =? badge_pk b').
    + rewrite Hs. reflexivity.
    + rewrite Hr. apply IH, Hfind.
Qed.

(** Saving a badge that was loaded by its slug, with another count, makes
    the new count the one the database holds under that slug. *)
Lemma find_badge_save_badge slug0 b n d :
  find_badge slug0 d = Some b →
  find_badge slug0 (save_badge (set_users_count b n) d) = Some (set_users_count b n).
Proof.
  destruct slug0 as [s|]; [|discriminate].
  unfold find_badge, save_badge. cbn [badge_table]. intros Hfind.
  assert (Hin : existsb (fun r => badge_pk r =? badge_pk (set_users_count b n))
                        (badge_table d) = true).
  { apply existsb_exists. exists b. apply find_some in Hfind as [Hin _].
    split; [exact Hin | apply Z.eqb_refl]. }
  rewrite Hin. eapply find_save_badge; [exact Hfind | reflexivity | reflexivity].
Qed.

(** Saving a badge leaves the awards and the users as they are. *)
Lemma save_badge_other_tables b d :
  award_table (save_badge b d) = award_table d
  ∧ user_table (save_badge b d) = user_table d.
Proof. split; reflexivity. Qed.

(** ** The fetch of the already-awarded ids *)

(** It never looks at the databases behind the other aliases, whatever
    [db_read] names. *)
Lemma get_already_awarded_user_ids_ignores_replicas self w r :
  fst (get_already_awarded_user_ids self (set_replicas r w))
  = fst (get_already_awarded_user_ids self w).
Proof.
  unfold get_already_awarded_user_ids, bind. rewrite !badge_run.
  rewrite after_round_trip_set_replicas. cbn [set_replicas primary].
  destruct (find_badge (slug self) (primary (after_round_trip w))) as [b|];
    [|reflexivity].
  rewrite !Badge_users_values_list_id_run.
  rewrite after_round_trip_set_replicas. reflexivity.
Qed.

(** * The claims *)

(** C1: whatever list A of already-awarded user ids and list B of
    currently-eligible user ids the two fetches return,
    [get_unawarded_user_ids] returns a list that holds, once each, exactly
    the ids of B that are not in A, together with its count, and the
    count is the length of the list. *)
Theorem get_unawarded_user_ids_difference self w A w1 B w2 :
  get_already_awarded_user_ids self w = (Ret A, w1) →
  get_current_user_ids self w1 = (Ret B, w2) →
  ∃ unawarded_ids,
    get_unawarded_user_ids self w
    = (Ret (unawarded_ids, Z.of_nat (length unawarded_ids)),
       add_log (DEBUG, MsgNeedAward (slug self) (Z.of_nat (length unawarded_ids))) w2)
    ∧ NoDup unawarded_ids
    ∧ ∀ x, x ∈ unawarded_ids ↔ x ∈ B ∧ x ∉ A.
Proof.
  intros HA HB.
  exists (elements ((list_to_set B : gset Z) ∖ list_to_set A)).
  split; [|split].
  - unfold get_unawarded_user_ids, bind. rewrite HA, HB. reflexivity.
  - apply NoDup_elements.
  - intros x. rewrite elem_of_elements, elem_of_difference, !elem_of_list_to_set.
    reflexivity.
Qed.

Lemma get_unawarded_user_ids_difference_witness :
  ∃ unawarded_ids,
    get_unawarded_user_ids (pioneer DEFAULT_DB_ALIAS 2)
      (world (mkDatabase [pioneer_badge 1] [mkAwardRow 1 1] [1; 2; 3])
             (mkDatabase [] [] []) [])
    = (Ret (unawarded_ids, Z.of_nat (length unawarded_ids)),
       add_log (DEBUG, MsgNeedAward (Some "pioneer") (Z.of_nat (length unawarded_ids)))
         (add_logs [(DEBUG, MsgAlreadyAwarded (Some "pioneer") 1 "default");
                    (DEBUG, MsgUsersToCheck (Some "pioneer") 3 "default")]
            (world (mkDatabase [pioneer_badge 1] [mkAwardRow 1 1] [1; 2; 3])
                   (mkDatabase [] [] []) [])))
    ∧ NoDup unawarded_ids
    ∧ ∀ x, x ∈ unawarded_ids ↔ x ∈ [1; 2; 3] ∧ x ∉ [1].
Proof.
  apply (get_unawarded_user_ids_difference (pioneer DEFAULT_DB_ALIAS 2)
           (world (mkDatabase [pioneer_badge 1] [mkAwardRow 1 1] [1; 2; 3])
                  (mkDatabase [] [] []) [])
           [1]
           (add_logs [(DEBUG, MsgAlreadyAwarded (Some "pioneer") 1 "default")]
              (world (mkDatabase [pioneer_badge 1] [mkAwardRow 1 1] [1; 2; 3])
                     (mkDatabase [] [] []) []))
           [1; 2; 3]).
  - reflexivity.
  - reflexivity.
Defined.

(** C5 does not hold as stated: a nonempty list of unawarded ids does
    not suffice.  With a [max_awards_per_create] of -1, [chunks] yields
    no chunk and [save_award_objects] returns [None] without calling
    [_bulk_create_awards]; with a [max_awards_per_create] of 0 it ends
    with the [ValueError] of [chunks].  Neither run raises [TypeError]. *)
Lemma save_award_objects_without_TypeError :
  get_unawarded_user_ids (pioneer DEFAULT_DB_ALIAS (-1))
    (world (mkDatabase [pioneer_badge 0] [] [1; 2; 3]) (mkDatabase [] [] []) [])
  = (Ret ([3; 2; 1], 3),
     add_logs [(DEBUG, MsgAlreadyAwarded (Some "pioneer") 0 "default");
               (DEBUG, MsgUsersToCheck (Some "pioneer") 3 "default");
               (DEBUG, MsgNeedAward (Some "pioneer") 3)]
       (world (mkDatabase [pioneer_badge 0] [] [1; 2; 3]) (mkDatabase [] [] []) []))
  ∧ save_award_objects (pioneer DEFAULT_DB_ALIAS (-1))
      (world (mkDatabase [pioneer_badge 0] [] [1; 2; 3]) (mkDatabase [] [] []) [])
    = (Ret tt,
       add_logs [(DEBUG, MsgAlreadyAwarded (Some "pioneer") 0 "default");
                 (DEBUG, MsgUsersToCheck (Some "pioneer") 3 "default");
                 (DEBUG, MsgNeedAward (Some "pioneer") 3)]
         (world (mkDatabase [pioneer_badge 0] [] [1; 2; 3]) (mkDatabase [] [] []) []))
  ∧ save_award_objects (pioneer DEFAULT_DB_ALIAS 0)
      (world (mkDatabase [pioneer_badge 0] [] [1; 2; 3]) (mkDatabase [] [] []) [])
    = (Raise ValueError,
       add_logs [(DEBUG, MsgAlreadyAwarded (Some "pioneer") 0 "default");
                 (DEBUG, MsgUsersToCheck (Some "pioneer") 3 "default");
                 (DEBUG, MsgNeedAward (Some "pioneer") 3)]
         (world (mkDatabase [pioneer_badge 0] [] [1; 2; 3]) (mkDatabase [] [] []) []))
  ∧ fst (save_award_objects (pioneer DEFAULT_DB_ALIAS (-1))
           (world (mkDatabase [pioneer_badge 0] [] [1; 2; 3]) (mkDatabase [] [] []) []))
    ≠ Raise TypeError
  ∧ fst (save_award_objects (pioneer DEFAULT_DB_ALIAS 0)
           (world (mkDatabase [pioneer_badge 0] [] [1; 2; 3]) (mkDatabase [] [] []) []))
    ≠ Raise TypeError.
Proof.
  split; [reflexivity|]. split; [reflexivity|]. split; [reflexivity|].
  split; discriminate.
Qed.

(** C5, amended: for every nonempty list of unawarded user ids and a
    positive [max_awards_per_create], [save_award_objects] raises
    [TypeError] at the call of
    [_bulk_create_awards] for the first chunk, having only read and
    logged until then: no award was inserted.  The method takes no
    parameter for the award objects, so that every call with the list of
    awards raises [TypeError], and a call without it stops with
    [NameError] at the unbound name [objects]; the insertion in its body
    cannot be reached. *)
Theorem save_award_objects_raises_TypeError self w unawarded_ids n w1 :
  get_unawarded_user_ids self w = (Ret (unawarded_ids, n), w1) →
  unawarded_ids ≠ [] →
  0 < max_awards_per_create self →
  (∃ w2, save_award_objects self w = (Raise TypeError, w2) ∧ only_read w w2)
  ∧ (∀ objects w', _bulk_create_awards self [objects] w' = (Raise TypeError, w'))
  ∧ (∀ w', _bulk_create_awards self [] w' = (Raise NameError, w')).
Proof.
  intros Hget Hne Hmax. split; [|split].
  - assert (Hread : only_read w w1).
    { pose proof (reader_get_unawarded_user_ids self w) as H.
      rewrite Hget in H. exact H. }
    unfold save_award_objects, bind. rewrite Hget.
    destruct unawarded_ids as [|x ids]; [congruence|].
    rewrite chunks_nonempty by assumption.
    unfold of_outcome.
    destruct (save_award_chunks_run self n 0 (take (Z.to_nat (max_awards_per_create self)) (x :: ids))
                (chunks_fuel (length ids)
                   (drop (Z.to_nat (max_awards_per_create self)) (x :: ids))
                   (Z.to_nat (max_awards_per_create self))) w1)
      as (w2 & -> & Hread2).
    exists w2. split; [reflexivity|].
    eapply only_read_trans; eassumption.
  - intros objects w'. reflexivity.
  - intros w'. reflexivity.
Qed.

Lemma save_award_objects_raises_TypeError_witness :
  (∃ w2, save_award_objects (pioneer DEFAULT_DB_ALIAS 2)
           (world (mkDatabase [pioneer_badge 0] [] [1; 2; 3]) (mkDatabase [] [] []) [])
         = (Raise TypeError, w2)
         ∧ only_read
             (world (mkDatabase [pioneer_badge 0] [] [1; 2; 3]) (mkDatabase [] [] []) [])
             w2)
  ∧ (∀ objects w', _bulk_create_awards (pioneer DEFAULT_DB_ALIAS 2) [objects] w'
                   = (Raise TypeError, w'))
  ∧ (∀ w', _bulk_create_awards (pioneer DEFAULT_DB_ALIAS 2) [] w'
           = (Raise NameError, w')).
Proof.
  apply (save_award_objects_raises_TypeError (pioneer DEFAULT_DB_ALIAS 2)
           (world (mkDatabase [pioneer_badge 0] [] [1; 2; 3]) (mkDatabase [] [] []) [])
           [3; 2; 1] 3
           (add_logs [(DEBUG, MsgAlreadyAwarded (Some "pioneer") 0 "default");
                      (DEBUG, MsgUsersToCheck (Some "pioneer") 3 "default");
                      (DEBUG, MsgNeedAward (Some "pioneer") 3)]
              (world (mkDatabase [pioneer_badge 0] [] [1; 2; 3])
                     (mkDatabase [] [] []) []))).
  - reflexivity.
  - discriminate.
  - reflexivity.
Defined.

(** The same run, evaluated: the world at the [TypeError] is the initial
    one with four log entries more. *)
Example save_award_objects_raises_TypeError_run :
  save_award_objects (pioneer DEFAULT_DB_ALIAS 2)
    (world (mkDatabase [pioneer_badge 0] [] [1; 2; 3]) (mkDatabase [] [] []) [])
  = (Raise TypeError,
     add_logs [(DEBUG, MsgAlreadyAwarded (Some "pioneer") 0 "default");
               (DEBUG, MsgUsersToCheck (Some "pioneer") 3 "default");
               (DEBUG, MsgNeedAward (Some "pioneer") 3);
               (DEBUG, MsgCreatingAwards (Some "pioneer") 2 3 "default")]
       (world (mkDatabase [pioneer_badge 0] [] [1; 2; 3]) (mkDatabase [] [] []) [])).
Proof. reflexivity. Qed.

(** C7: when [user_ids] is undefined or empty, or the badge does not
    exist in the database, [can_perform_awarding] returns [False] after
    logging one message, and [create_awards] returns without an
    exception, leaving everything but the log as it was: no award is
    created or modified. *)
Theorem create_awards_short_circuits self w :
  pending w = [] →
  user_ids self = None
  ∨ (∃ qs, user_ids self = Some qs ∧ qs (primary w) = [])
  ∨ find_badge (slug self) (primary w) = None →
  ∃ m,
    can_perform_awarding self w = (Ret false, add_log (DEBUG, m) w)
    ∧ create_awards self w = (Ret tt, add_log (DEBUG, m) w)
    ∧ primary (add_log (DEBUG, m) w) = primary w
    ∧ (m = MsgNoUsers (slug self) ∨ m = MsgDoesNotExist (slug self)).
Proof.
  intros Hquiet Hpre.
  assert (Hcan : ∃ m, can_perform_awarding self w = (Ret false, add_log (DEBUG, m) w)
                      ∧ (m = MsgNoUsers (slug self) ∨ m = MsgDoesNotExist (slug self))).
  { rewrite can_perform_awarding_quiet by assumption.
    destruct Hpre as [Hnone | [(qs & Hqs & Hempty) | Hbadge]].
    - rewrite Hnone. eauto.
    - rewrite Hqs, Hempty. eauto.
    - rewrite Hbadge.
      destruct (user_ids self) as [qs|]; [destruct (qs (primary w))|]; eauto. }
  destruct Hcan as (m & Hcan & Hm). exists m.
  split; [exact Hcan|]. split; [|split; [reflexivity | exact Hm]].
  unfold create_awards, bind. rewrite Hcan. reflexivity.
Qed.

Lemma create_awards_short_circuits_witness :
  ∃ m,
    can_perform_awarding (pioneer DEFAULT_DB_ALIAS 2)
      (world (mkDatabase [] [] [1; 2]) (mkDatabase [] [] []) [])
    = (Ret false,
       add_log (DEBUG, m) (world (mkDatabase [] [] [1; 2]) (mkDatabase [] [] []) []))
    ∧ create_awards (pioneer DEFAULT_DB_ALIAS 2)
        (world (mkDatabase [] [] [1; 2]) (mkDatabase [] [] []) [])
      = (Ret tt,
         add_log (DEBUG, m) (world (mkDatabase [] [] [1; 2]) (mkDatabase [] [] []) []))
    ∧ primary (add_log (DEBUG, m)
                 (world (mkDatabase [] [] [1; 2]) (mkDatabase [] [] []) []))
      = mkDatabase [] [] [1; 2]
    ∧ (m = MsgNoUsers (Some "pioneer") ∨ m = MsgDoesNotExist (Some "pioneer")).
Proof.
  apply (create_awards_short_circuits (pioneer DEFAULT_DB_ALIAS 2)
           (world (mkDatabase [] [] [1; 2]) (mkDatabase [] [] []) [])).
  - reflexivity.
  - right. right. reflexivity.
Defined.

(** C9: [update_badge_users_count] compares the stored [users_count] of
    the badge with the live count of its awarded users.  When they are
    equal nothing is saved, the database is as before and [updated] is
    [False]; when they differ the badge is saved with the live count, the
    database then holds that count under the slug, and [updated] is
    [True]. *)
Theorem update_badge_users_count_only_on_mismatch self w b :
  pending w = [] →
  find_badge (slug self) (primary w) = Some b →
  let live := Z.of_nat (length (awarded_users b (primary w))) in
  let w0 := add_log (DEBUG, MsgSyncing (slug self)) w in
  if badge_users_count b =? live
  then
    update_badge_users_count self w
    = (Ret (TheBadge b, false), add_log (DEBUG, MsgUpToDate (slug self) live) w0)
    ∧ primary (add_log (DEBUG, MsgUpToDate (slug self) live) w0) = primary w
  else
    update_badge_users_count self w
    = (Ret (TheBadge (set_users_count b live), true),
       add_log (DEBUG, MsgUpdatedCount (slug self) (badge_users_count b) live)
         (set_primary (save_badge (set_users_count b live) (primary w)) w0))
    ∧ find_badge (slug self) (save_badge (set_users_count b live) (primary w))
      = Some (set_users_count b live).
Proof.
  intros Hquiet Hfind live w0.
  rewrite update_badge_users_count_quiet by assumption.
  rewrite Hfind. cbv zeta. fold live. fold w0.
  destruct (badge_users_count b =? live).
  - split; reflexivity.
  - split; [reflexivity|]. apply find_badge_save_badge, Hfind.
Qed.

Lemma update_badge_users_count_only_on_mismatch_witness :
  update_badge_users_count (pioneer DEFAULT_DB_ALIAS 2)
    (world (mkDatabase [pioneer_badge 0] [mkAwardRow 7 1] [7]) (mkDatabase [] [] []) [])
  = (Ret (TheBadge (pioneer_badge 1), true),
     add_logs [(DEBUG, MsgSyncing (Some "pioneer"));
               (DEBUG, MsgUpdatedCount (Some "pioneer") 0 1)]
       (world (mkDatabase [pioneer_badge 1] [mkAwardRow 7 1] [7])
              (mkDatabase [] [] []) []))
  ∧ find_badge (Some "pioneer") (mkDatabase [pioneer_badge 1] [mkAwardRow 7 1] [7])
    = Some (pioneer_badge 1).
Proof.
  exact (update_badge_users_count_only_on_mismatch (pioneer DEFAULT_DB_ALIAS 2)
           (world (mkDatabase [pioneer_badge 0] [mkAwardRow 7 1] [7])
                  (mkDatabase [] [] []) [])
           (pioneer_badge 0) eq_refl eq_refl).
Defined.

(** With a stored count that is already the live one, nothing is written. *)
Example update_badge_users_count_up_to_date :
  update_badge_users_count (pioneer DEFAULT_DB_ALIAS 2)
    (world (mkDatabase [pioneer_badge 1] [mkAwardRow 7 1] [7]) (mkDatabase [] [] []) [])
  = (Ret (TheBadge (pioneer_badge 1), false),
     add_logs [(DEBUG, MsgSyncing (Some "pioneer"));
               (DEBUG, MsgUpToDate (Some "pioneer") 1)]
       (world (mkDatabase [pioneer_badge 1] [mkAwardRow 7 1] [7])
              (mkDatabase [] [] []) [])).
Proof. reflexivity. Qed.

(** C10: when the badge does not exist in the database,
    [update_badge_users_count] writes nothing and returns the pair of the
    recipe's slug and [False]; whenever the badge exists, the first
    component of the pair is a badge object.  The two cases return
    values of different types. *)
Theorem update_badge_users_count_returns_slug_without_badge self w :
  pending w = [] →
  match find_badge (slug self) (primary w) with
  | None =>
      update_badge_users_count self w
      = (Ret (TheSlug (slug self), false),
         add_logs [(DEBUG, MsgSyncing (slug self));
                   (DEBUG, MsgDoesNotExist (slug self))] w)
  | Some _ =>
      ∃ b updated w',
        update_badge_users_count self w = (Ret (TheBadge b, updated), w')
  end.
Proof.
  intros Hquiet. rewrite update_badge_users_count_quiet by assumption.
  destruct (find_badge (slug self) (primary w)) as [b|]; [|reflexivity].
  cbv zeta.
  destruct (badge_users_count b =? _); eauto.
Qed.

Lemma update_badge_users_count_returns_slug_without_badge_witness :
  update_badge_users_count (pioneer DEFAULT_DB_ALIAS 2)
    (world (mkDatabase [] [mkAwardRow 7 1] [7]) (mkDatabase [] [] []) [])
  = (Ret (TheSlug (Some "pioneer"), false),
     add_logs [(DEBUG, MsgSyncing (Some "pioneer"));
               (DEBUG, MsgDoesNotExist (Some "pioneer"))]
       (world (mkDatabase [] [mkAwardRow 7 1] [7]) (mkDatabase [] [] []) [])).
Proof.
  exact (update_badge_users_count_returns_slug_without_badge
           (pioneer DEFAULT_DB_ALIAS 2)
           (world (mkDatabase [] [mkAwardRow 7 1] [7]) (mkDatabase [] [] []) [])
           eq_refl).
Defined.

(** C8 does not hold as stated: another process creates the badge
    between the lookup and the creation; [create_badge] then returns no
    badge at all, although the database holds one under the slug. *)
Lemma create_badge_race_returns_no_badge :
  create_badge (pioneer DEFAULT_DB_ALIAS 2)
    (world (mkDatabase [] [] [1]) (mkDatabase [] [] []) [[]; [other_pioneer]])
  = (Ret (None, false, true),
     add_log (DEBUG, MsgBadgeIntegrityError (Some "pioneer"))
       (world (mkDatabase [other_pioneer_badge] [] [1]) (mkDatabase [] [] []) []))
  ∧ find_badge (Some "pioneer") (mkDatabase [other_pioneer_badge] [] [1])
    = Some other_pioneer_badge
  ∧ ¬ returns_existing_badge (pioneer DEFAULT_DB_ALIAS 2)
        (world (mkDatabase [] [] [1]) (mkDatabase [] [] []) [[]; [other_pioneer]]).
Proof.
  split; [reflexivity|]. split; [reflexivity|].
  intros (b & created & failed & w' & Hrun & _).
  vm_compute in Hrun. discriminate Hrun.
Qed.

(** C8, amended: [create_badge] fetches the badge by slug and returns it
    when it exists; otherwise it creates it, under the slug of the recipe
    or, when that is blank, under the slugified name.  When the slug to
    store has been taken in the meantime, the uniqueness violation is
    caught and logged and the function returns normally, with no badge
    ([None]), [created = False] and [failed = True], and without writing;
    a recipe without name ends the same way, the name being mandatory.
    Here [w1] is the world at the lookup and [w2] the world at the
    creation, which differ when another process commits in between. *)
Theorem create_badge_fetch_or_create self w :
  let w1 := after_round_trip w in
  let w2 := after_round_trip w1 in
  match find_badge (slug self) (primary w1), image self with
  | Some b, _ =>
      create_badge self w
      = (Ret (Some b, false, false),
         add_log (DEBUG, MsgAlreadyCreated (badge_slug b)) w1)
  | None, Some img =>
      match name self with
      | None =>
          create_badge self w
          = (Ret (None, false, true),
             add_log (DEBUG, MsgBadgeIntegrityError (slug self)) w2)
      | Some n =>
          let s := stored_slug (slugify w2) n (slug self) in
          let b := {| badge_pk := next_pk (primary w2);
                      badge_name := n;
                      badge_slug := s;
                      badge_description := default "" (description self);
                      badge_image := img;
                      badge_users_count := 0 |} in
          if slug_taken s (primary w2)
          then
            create_badge self w
            = (Ret (None, false, true),
               add_log (DEBUG, MsgBadgeIntegrityError (slug self)) w2)
          else
            create_badge self w
            = (Ret (Some b, true, false),
               add_log (DEBUG, MsgCreated s)
                 (set_primary
                    {| badge_table := badge_table (primary w2) ++ [b];
                       award_table := award_table (primary w2);
                       user_table := user_table (primary w2) |} w2))
      end
  | None, None => create_badge self w = (Raise NotImplementedError, w1)
  end.
Proof.
  intros w1 w2. rewrite create_badge_run. cbv zeta. fold w1. fold w2.
  destruct (find_badge (slug self) (primary w1)) as [b|]; [reflexivity|].
  destruct (image self) as [img|]; [|reflexivity].
  unfold insert_badge, new_badge. cbn [kw_name kw_slug kw_image kw_description badge_slug].
  destruct (name self) as [n|]; [|reflexivity].
  destruct (slug_taken (stored_slug (slugify w2) n (slug self)) (primary w2));
    reflexivity.
Qed.

(** A recipe that leaves [slug] at [None]: the badge is stored under the
    slugified name, where the lookup by [slug = None] never finds it, so
    that the next call attempts the creation again and fails. *)
Example create_badge_without_slug :
  create_badge
    {| name := Some "Early Bird"; slug := None; description := None;
       db_read := DEFAULT_DB_ALIAS; max_awards_per_create := 2;
       image := Some "bird.png"; user_ids := None |}
    (world (mkDatabase [] [] []) (mkDatabase [] [] []) [])
  = (Ret (Some (mkBadge 1 "Early Bird" "early-bird" "" "bird.png" 0), true, false),
     add_log (DEBUG, MsgCreated "early-bird")
       (world (mkDatabase [mkBadge 1 "Early Bird" "early-bird" "" "bird.png" 0] [] [])
              (mkDatabase [] [] []) []))
  ∧ create_badge
      {| name := Some "Early Bird"; slug := None; description := None;
         db_read := DEFAULT_DB_ALIAS; max_awards_per_create := 2;
         image := Some "bird.png"; user_ids := None |}
      (world (mkDatabase [mkBadge 1 "Early Bird" "early-bird" "" "bird.png" 0] [] [])
             (mkDatabase [] [] []) [])
    = (Ret (None, false, true),
       add_log (DEBUG, MsgBadgeIntegrityError None)
         (world (mkDatabase [mkBadge 1 "Early Bird" "early-bird" "" "bird.png" 0] [] [])
                (mkDatabase [] [] []) [])).
Proof. split; reflexivity. Qed.

(** A recipe that leaves [name] at [None] cannot create its badge. *)
Example create_badge_without_name :
  create_badge
    {| name := None; slug := Some "pioneer"; description := None;
       db_read := DEFAULT_DB_ALIAS; max_awards_per_create := 2;
       image := Some "pioneer.png"; user_ids := None |}
    (world (mkDatabase [] [] []) (mkDatabase [] [] []) [])
  = (Ret (None, false, true),
     add_log (DEBUG, MsgBadgeIntegrityError (Some "pioneer"))
       (world (mkDatabase [] [] []) (mkDatabase [] [] []) [])).
Proof. reflexivity. Qed.

(** ** Where the code departs from the claims *)

(** C4: with [db_read = 'replica'], the already-awarded ids come from
    the default database (user 1), although the replica holds no award
    and the log entry names the replica; the eligible ids, fetched with
    [using(self.db_read)], do come from the replica. *)
Theorem get_already_awarded_user_ids_reads_default_database :
  let self := pioneer "replica" 2 in
  let w := world (mkDatabase [pioneer_badge 1] [mkAwardRow 1 1] [1; 2])
                 (mkDatabase [pioneer_badge 0] [] [1; 2; 3]) [] in
  get_already_awarded_user_ids self w
  = (Ret [1], add_log (DEBUG, MsgAlreadyAwarded (Some "pioneer") 1 "replica") w)
  ∧ awarded_users (pioneer_badge 0) (connections "replica" w) = []
  ∧ get_current_user_ids self w
    = (Ret [1; 2; 3], add_log (DEBUG, MsgUsersToCheck (Some "pioneer") 3 "replica") w).
Proof. repeat split. Qed.

(** C2: for a batch that repeats an award already in the table,
    [_bulk_create_awards], called as [save_award_objects] calls it, raises
    [TypeError] to its caller and logs nothing; called without argument it
    raises [NameError].  Only its body, run with [objects] bound to the
    batch, catches the [IntegrityError] and logs it. *)
Theorem bulk_create_awards_duplicate_escapes_as_TypeError :
  let self := pioneer DEFAULT_DB_ALIAS 2 in
  let w := world (mkDatabase [pioneer_badge 1] [mkAwardRow 7 1] [7])
                 (mkDatabase [] [] []) [] in
  let batch := [{| award_user := 7; award_badge := Some (pioneer_badge 1) |}] in
  _bulk_create_awards self [batch] w = (Raise TypeError, w)
  ∧ _bulk_create_awards self [] w = (Raise NameError, w)
  ∧ bulk_create_awards_body self (ret batch) w
    = (Ret tt, add_log (ERROR, MsgAwardsIntegrityError (Some "pioneer") 1) w).
Proof. repeat split. Qed.

(** C3: the first run of [create_awards] on two eligible users and no
    award ends with [TypeError] and an empty Award table; the second run
    finds the same two users unawarded and ends the same way. *)
Theorem create_awards_first_run_awards_nobody :
  let self := pioneer DEFAULT_DB_ALIAS 2 in
  let w := world (mkDatabase [pioneer_badge 0] [] [1; 2]) (mkDatabase [] [] []) [] in
  let w1 := add_logs [(DEBUG, MsgAlreadyAwarded (Some "pioneer") 0 "default");
                      (DEBUG, MsgUsersToCheck (Some "pioneer") 2 "default");
                      (DEBUG, MsgNeedAward (Some "pioneer") 2);
                      (DEBUG, MsgCreatingAwards (Some "pioneer") 2 2 "default")] w in
  create_awards self w = (Raise TypeError, w1)
  ∧ award_table (primary w1) = []
  ∧ fst (get_unawarded_user_ids self w1) = Ret ([2; 1], 2)
  ∧ fst (create_awards self w1) = Raise TypeError
  ∧ award_table (primary (snd (create_awards self w1))) = [].
Proof. vm_compute. repeat split. Qed.

(** C6: three unawarded ids and a maximum of two give the chunks of
    sizes two and one, but the first chunk is never inserted:
    [save_award_objects] ends with [TypeError] and an empty Award table. *)
Theorem save_award_objects_inserts_no_chunk :
  let self := pioneer DEFAULT_DB_ALIAS 2 in
  let w := world (mkDatabase [pioneer_badge 0] [] [1; 2; 3]) (mkDatabase [] [] []) [] in
  fst (get_unawarded_user_ids self w) = Ret ([3; 2; 1], 3)
  ∧ chunks [3; 2; 1] (max_awards_per_create self) = Ret [[3; 2]; [1]]
  ∧ fst (save_award_objects self w) = Raise TypeError
  ∧ award_table (primary (snd (save_award_objects self w))) = [].
Proof. repeat split. Qed.

(** * Further properties of the recipe *)

(** ** What the awarding process never does *)

Lemma post_save_after_round_trip w : post_save (after_round_trip w) = post_save w.
Proof. unfold after_round_trip, round_trip. destruct (pending w); reflexivity. Qed.

Lemma only_read_post_save w w' : only_read w w' → post_save w' = post_save w.
Proof.
  intros (k & es & ->). rewrite post_save_add_logs.
  induction k as [|k IH]; [reflexivity|].
  rewrite Nat.iter_succ, post_save_after_round_trip. exact IH.
Qed.

Lemma reader_can_perform_awarding self : reader (can_perform_awarding self).
Proof.
  unfold can_perform_awarding, user_ids_truth, QuerySet_fetch.
  pose proof (reader_badge self). auto 12 with reader.
Qed.

Lemma reader_save_award_chunks self total done_ids todo :
  reader (save_award_chunks self total done_ids todo).
Proof.
  intros w. destruct todo as [|ids todo]; [apply only_read_refl|].
  destruct (save_award_chunks_run self total done_ids ids todo w) as (w' & -> & H).
  exact H.
Qed.

Lemma reader_save_award_objects self : reader (save_award_objects self).
Proof.
  unfold save_award_objects. apply reader_bind.
  - apply reader_get_unawarded_user_ids.
  - intros [ids n]. destruct ids; [apply reader_ret|].
    apply reader_bind; [apply reader_of_outcome|].
    intros todo. apply reader_save_award_chunks.
Qed.

(** X1: whatever the recipe and the world, [create_awards] and
    [save_award_objects] never write to a database and never send a
    [post_save] signal: they leave the world as the round trips of their
    queries and their log entries make it. *)
Theorem create_awards_never_writes self w :
  only_read w (snd (create_awards self w))
  ∧ post_save (snd (create_awards self w)) = post_save w
  ∧ only_read w (snd (save_award_objects self w))
  ∧ post_save (snd (save_award_objects self w)) = post_save w.
Proof.
  assert (Hc : only_read w (snd (create_awards self w))).
  { unfold create_awards. apply reader_bind.
    - apply reader_can_perform_awarding.
    - intros [|]; [apply reader_save_award_objects | apply reader_ret]. }
  pose proof (reader_save_award_objects self w) as Hs.
  split; [exact Hc|]. split; [apply only_read_post_save, Hc|].
  split; [exact Hs | apply only_read_post_save, Hs].
Qed.

(** ** The diffing step without concurrent writers *)

Lemma get_unawarded_user_ids_quiet self w :
  pending w = [] →
  get_unawarded_user_ids self w
  = match find_badge (slug self) (primary w) with
    | None => (Raise AttributeError, w)
    | Some b =>
        let A := awarded_users b (primary w) in
        let w1 := add_log (DEBUG, MsgAlreadyAwarded (slug self) (Z.of_nat (length A))
                                    (db_read self)) w in
        match user_ids self with
        | None => (Raise AttributeError, w1)
        | Some qs =>
            let B := qs (connections (db_read self) w) in
            let ids := elements ((list_to_set B : gset Z) ∖ list_to_set A) in
            (Ret (ids, Z.of_nat (length ids)),
             add_logs [(DEBUG, MsgUsersToCheck (slug self) (Z.of_nat (length B))
                                 (db_read self));
                       (DEBUG, MsgNeedAward (slug self) (Z.of_nat (length ids)))] w1)
        end
    end.
Proof.
  intros H. unfold get_unawarded_user_ids, get_already_awarded_user_ids. unfold bind at 1 2.
  rewrite badge_run, after_round_trip_quiet by assumption.
  destruct (find_badge (slug self) (primary w)) as [b|]; [|reflexivity].
  unfold bind at 1. rewrite Badge_users_values_list_id_run, after_round_trip_quiet
    by assumption.
  unfold bind at 1. unfold logger_debug at 1. unfold ret at 1.
  unfold get_current_user_ids. unfold bind at 1.
  destruct (user_ids self) as [qs|]; [|reflexivity].
  unfold bind at 1. rewrite QuerySet_fetch_run, after_round_trip_add_log,
    after_round_trip_quiet by assumption.
  reflexivity.
Qed.

(** X2: [save_award_objects] relies on its caller for the checks of
    [can_perform_awarding].  Called on its own when the badge does not
    exist or when [user_ids] is undefined, it raises [AttributeError]
    (an attribute of [None] is looked up), having written nothing. *)
Theorem save_award_objects_unguarded self w :
  pending w = [] →
  find_badge (slug self) (primary w) = None ∨ user_ids self = None →
  ∃ es, save_award_objects self w = (Raise AttributeError, add_logs es w)
        ∧ get_unawarded_user_ids self w = (Raise AttributeError, add_logs es w).
Proof.
  intros Hquiet Hpre.
  assert (H : ∃ es, get_unawarded_user_ids self w
                    = (Raise AttributeError, add_logs es w)).
  { rewrite get_unawarded_user_ids_quiet by assumption.
    destruct (find_badge (slug self) (primary w)) as [b|].
    - destruct Hpre as [|Hnone]; [discriminate|]. rewrite Hnone.
      eexists [_]. reflexivity.
    - exists []. reflexivity. }
  destruct H as (es & H). exists es. split; [|exact H].
  unfold save_award_objects, bind. rewrite H. reflexivity.
Qed.

Lemma save_award_objects_unguarded_witness :
  ∃ es, save_award_objects (pioneer DEFAULT_DB_ALIAS 2)
          (world (mkDatabase [] [] [1; 2]) (mkDatabase [] [] []) [])
        = (Raise AttributeError,
           add_logs es (world (mkDatabase [] [] [1; 2]) (mkDatabase [] [] []) []))
        ∧ get_unawarded_user_ids (pioneer DEFAULT_DB_ALIAS 2)
            (world (mkDatabase [] [] [1; 2]) (mkDatabase [] [] []) [])
          = (Raise AttributeError,
             add_logs es (world (mkDatabase [] [] [1; 2]) (mkDatabase [] [] []) [])).
Proof.
  apply (save_award_objects_unguarded (pioneer DEFAULT_DB_ALIAS 2)
           (world (mkDatabase [] [] [1; 2]) (mkDatabase [] [] []) [])).
  - reflexivity.
  - left. reflexivity.
Defined.

(** X3: behind its guard, [create_awards] never meets a missing badge or
    an undefined [user_ids].  Without concurrent writers it returns
    [None], or ends with the [TypeError] of [_bulk_create_awards], which
    takes a positive [max_awards_per_create], or ends with the
    [ValueError] of [chunks], which takes a [max_awards_per_create] of 0;
    no other exception leaves it. *)
Theorem create_awards_outcomes self w :
  pending w = [] →
  fst (create_awards self w) = Ret tt
  ∨ (fst (create_awards self w) = Raise TypeError
     ∧ 0 < max_awards_per_create self)
  ∨ (fst (create_awards self w) = Raise ValueError
     ∧ max_awards_per_create self = 0).
Proof.
  intros Hquiet.
  assert (H : ∃ o w', create_awards self w = (o, w')
                      ∧ (o = Ret tt
                         ∨ (o = Raise TypeError ∧ 0 < max_awards_per_create self)
                         ∨ (o = Raise ValueError ∧ max_awards_per_create self = 0))).
  { unfold create_awards. unfold bind at 1.
    rewrite can_perform_awarding_quiet by assumption.
    destruct (user_ids self) as [qs|] eqn:Hqs; [|eauto].
    destruct (qs (primary w)); [eauto|].
    destruct (find_badge (slug self) (primary w)) as [b|] eqn:Hb; [|eauto].
    unfold save_award_objects. unfold bind at 1.
    rewrite get_unawarded_user_ids_quiet, Hb, Hqs by assumption. cbv zeta.
    destruct (elements _) as [|x ids]; [eauto|].
    unfold bind at 1. unfold of_outcome.
    destruct (Z.lt_trichotomy (max_awards_per_create self) 0) as [Hn | [Hn | Hn]].
    - rewrite chunks_negative by assumption.
      eexists _, _. split; [reflexivity|]. left. reflexivity.
    - rewrite Hn, chunks_zero.
      eexists _, _. split; [reflexivity|]. right. right. split; reflexivity.
    - rewrite chunks_nonempty by lia.
      match goal with
      | |- context [save_award_chunks self ?n 0 (?c :: ?cs) ?w0] =>
          destruct (save_award_chunks_run self n 0 c cs w0) as (w' & -> & _)
      end.
      eexists _, _. split; [reflexivity|]. right. left. split; [reflexivity | lia]. }
  destruct H as (o & w' & -> & H). exact H.
Qed.

Lemma create_awards_outcomes_witness :
  fst (create_awards (pioneer DEFAULT_DB_ALIAS 2)
         (world (mkDatabase [pioneer_badge 0] [] [1; 2]) (mkDatabase [] [] []) []))
  = Ret tt
  ∨ (fst (create_awards (pioneer DEFAULT_DB_ALIAS 2)
            (world (mkDatabase [pioneer_badge 0] [] [1; 2]) (mkDatabase [] [] []) []))
     = Raise TypeError
     ∧ 0 < 2)
  ∨ (fst (create_awards (pioneer DEFAULT_DB_ALIAS 2)
            (world (mkDatabase [pioneer_badge 0] [] [1; 2]) (mkDatabase [] [] []) []))
     = Raise ValueError
     ∧ 2 = 0).
Proof.
  apply (create_awards_outcomes (pioneer DEFAULT_DB_ALIAS 2)
           (world (mkDatabase [pioneer_badge 0] [] [1; 2]) (mkDatabase [] [] []) [])).
  reflexivity.
Defined.

(** The three outcomes, on two eligible users without award. *)
Example create_awards_by_size :
  fst (create_awards (pioneer DEFAULT_DB_ALIAS 2)
         (world (mkDatabase [pioneer_badge 0] [] [1; 2]) (mkDatabase [] [] []) []))
  = Raise TypeError
  ∧ fst (create_awards (pioneer DEFAULT_DB_ALIAS 0)
           (world (mkDatabase [pioneer_badge 0] [] [1; 2]) (mkDatabase [] [] []) []))
    = Raise ValueError
  ∧ fst (create_awards (pioneer DEFAULT_DB_ALIAS (-1))
           (world (mkDatabase [pioneer_badge 0] [] [1; 2]) (mkDatabase [] [] []) []))
    = Ret tt.
Proof. repeat split. Qed.

(** X4: when the guard passes and every eligible user already holds the
    badge, [create_awards] returns [None] without reaching the chunk
    loop: the world gains the three log entries of the diffing step, the
    last one reporting 0 users to award, and nothing else changes. *)
Theorem create_awards_nothing_to_award self w qs b :
  pending w = [] →
  user_ids self = Some qs →
  qs (primary w) ≠ [] →
  find_badge (slug self) (primary w) = Some b →
  (∀ x, x ∈ qs (connections (db_read self) w) → x ∈ awarded_users b (primary w)) →
  create_awards self w
  = (Ret tt,
     add_logs [(DEBUG, MsgAlreadyAwarded (slug self)
                         (Z.of_nat (length (awarded_users b (primary w))))
                         (db_read self));
               (DEBUG, MsgUsersToCheck (slug self)
                         (Z.of_nat (length (qs (connections (db_read self) w))))
                         (db_read self));
               (DEBUG, MsgNeedAward (slug self) 0)] w).
Proof.
  intros Hquiet Hqs Hne Hb Hall.
  unfold create_awards. unfold bind at 1.
  rewrite can_perform_awarding_quiet, Hqs, Hb by assumption.
  destruct (qs (primary w)) as [|u us] eqn:Hrows; [congruence|].
  unfold save_award_objects. unfold bind at 1.
  rewrite get_unawarded_user_ids_quiet, Hb, Hqs by assumption. cbv zeta.
  assert (Hempty : (list_to_set (qs (connections (db_read self) w)) : gset Z)
                   ∖ list_to_set (awarded_users b (primary w)) = ∅).
  { apply set_eq. intros x.
    rewrite elem_of_difference, !elem_of_list_to_set, elem_of_empty.
    split; [intros [Hin Hnot]; apply Hnot, Hall, Hin | tauto]. }
  rewrite Hempty, elements_empty. reflexivity.
Qed.

Lemma create_awards_nothing_to_award_witness :
  create_awards (pioneer DEFAULT_DB_ALIAS 2)
    (world (mkDatabase [pioneer_badge 2] [mkAwardRow 1 1; mkAwardRow 2 1] [1; 2])
           (mkDatabase [] [] []) [])
  = (Ret tt,
     add_logs [(DEBUG, MsgAlreadyAwarded (Some "pioneer") 2 "default");
               (DEBUG, MsgUsersToCheck (Some "pioneer") 2 "default");
               (DEBUG, MsgNeedAward (Some "pioneer") 0)]
       (world (mkDatabase [pioneer_badge 2] [mkAwardRow 1 1; mkAwardRow 2 1] [1; 2])
              (mkDatabase [] [] []) [])).
Proof.
  apply (create_awards_nothing_to_award (pioneer DEFAULT_DB_ALIAS 2)
           (world (mkDatabase [pioneer_badge 2] [mkAwardRow 1 1; mkAwardRow 2 1] [1; 2])
                  (mkDatabase [] [] []) [])
           every_user (pioneer_badge 2)).
  - reflexivity.
  - reflexivity.
  - discriminate.
  - reflexivity.
  - intros x Hx. exact Hx.
Defined.

(** X5: [can_perform_awarding] never raises and only adds to the log;
    without concurrent writers it returns [True] exactly when [user_ids]
    is a query set with at least one row on the default database and the
    badge exists there. *)
Theorem can_perform_awarding_true_iff self w :
  pending w = [] →
  ∃ ok es,
    can_perform_awarding self w = (Ret ok, add_logs es w)
    ∧ (ok = true ↔
       (∃ qs, user_ids self = Some qs ∧ qs (primary w) ≠ [])
       ∧ find_badge (slug self) (primary w) ≠ None).
Proof.
  intros Hquiet. rewrite can_perform_awarding_quiet by assumption.
  destruct (user_ids self) as [qs|].
  - destruct (qs (primary w)) as [|u us] eqn:Hrows.
    + exists false, [(DEBUG, MsgNoUsers (slug self))]. split; [reflexivity|].
      split; [discriminate|]. intros [(qs' & [= <-] & Hne) _]. congruence.
    + destruct (find_badge (slug self) (primary w)) as [b|].
      * exists true, []. split; [reflexivity|].
        split; [|reflexivity]. intros _. split; [|discriminate].
        exists qs. split; [reflexivity|]. rewrite Hrows. discriminate.
      * exists false, [(DEBUG, MsgDoesNotExist (slug self))]. split; [reflexivity|].
        split; [discriminate|]. intros [_ Hb]. congruence.
  - exists false, [(DEBUG, MsgNoUsers (slug self))]. split; [reflexivity|].
    split; [discriminate|]. intros [(qs & [=] & _) _].
Qed.

Lemma can_perform_awarding_true_iff_witness :
  ∃ ok es,
    can_perform_awarding (pioneer DEFAULT_DB_ALIAS 2)
      (world (mkDatabase [pioneer_badge 0] [] [1; 2]) (mkDatabase [] [] []) [])
    = (Ret ok,
       add_logs es (world (mkDatabase [pioneer_badge 0] [] [1; 2])
                          (mkDatabase [] [] []) []))
    ∧ (ok = true ↔
       (∃ qs, Some every_user = Some qs ∧ qs (mkDatabase [pioneer_badge 0] [] [1; 2]) ≠ [])
       ∧ find_badge (Some "pioneer") (mkDatabase [pioneer_badge 0] [] [1; 2]) ≠ None).
Proof.
  apply (can_perform_awarding_true_iff (pioneer DEFAULT_DB_ALIAS 2)
           (world (mkDatabase [pioneer_badge 0] [] [1; 2]) (mkDatabase [] [] []) [])).
  reflexivity.
Defined.

(** X6: the count that [get_unawarded_user_ids] returns lies between 0
    and the number of eligible ids fetched, and it is 0 exactly when
    every eligible id is among the already-awarded ones. *)
Theorem get_unawarded_user_ids_count_bounds self w A w1 B w2 :
  get_already_awarded_user_ids self w = (Ret A, w1) →
  get_current_user_ids self w1 = (Ret B, w2) →
  ∃ ids n w3,
    get_unawarded_user_ids self w = (Ret (ids, n), w3)
    ∧ 0 ≤ n ≤ Z.of_nat (length B)
    ∧ (n = 0 ↔ ∀ x, x ∈ B → x ∈ A).
Proof.
  intros HA HB.
  set (ids := elements ((list_to_set B : gset Z) ∖ list_to_set A)).
  exists ids, (Z.of_nat (length ids)), (add_log (DEBUG, MsgNeedAward (slug self)
                                                  (Z.of_nat (length ids))) w2).
  split; [|split].
  - unfold get_unawarded_user_ids, bind. rewrite HA, HB. reflexivity.
  - split; [lia|]. apply inj_le.
    apply submseteq_length, NoDup_submseteq; [apply NoDup_elements|].
    intros x. unfold ids.
    rewrite elem_of_elements, elem_of_difference, elem_of_list_to_set. tauto.
  - split.
    + intros Hn x Hx.
      destruct (decide (x ∈ A)) as [|Hnot]; [assumption|].
      assert (Hin : x ∈ ids).
      { unfold ids. rewrite elem_of_elements, elem_of_difference,
          !elem_of_list_to_set. tauto. }
      destruct ids; [inversion Hin | simpl in Hn; lia].
    + intros Hall. destruct ids as [|x rest] eqn:Hids; [reflexivity|].
      assert (Hin : x ∈ ids) by (rewrite Hids; left).
      unfold ids in Hin.
      rewrite elem_of_elements, elem_of_difference, !elem_of_list_to_set in Hin.
      destruct Hin as [HxB HxA]. destruct (HxA (Hall x HxB)).
Qed.

Lemma get_unawarded_user_ids_count_bounds_witness :
  ∃ ids n w3,
    get_unawarded_user_ids (pioneer DEFAULT_DB_ALIAS 2)
      (world (mkDatabase [pioneer_badge 1] [mkAwardRow 1 1] [1; 2; 3])
             (mkDatabase [] [] []) [])
    = (Ret (ids, n), w3)
    ∧ 0 ≤ n ≤ Z.of_nat (length [1; 2; 3])
    ∧ (n = 0 ↔ ∀ x, x ∈ [1; 2; 3] → x ∈ [1]).
Proof.
  apply (get_unawarded_user_ids_count_bounds (pioneer DEFAULT_DB_ALIAS 2)
           (world (mkDatabase [pioneer_badge 1] [mkAwardRow 1 1] [1; 2; 3])
                  (mkDatabase [] [] []) [])
           [1]
           (add_logs [(DEBUG, MsgAlreadyAwarded (Some "pioneer") 1 "default")]
              (world (mkDatabase [pioneer_badge 1] [mkAwardRow 1 1] [1; 2; 3])
                     (mkDatabase [] [] []) []))
           [1; 2; 3]
           (add_logs [(DEBUG, MsgAlreadyAwarded (Some "pioneer") 1 "default");
                      (DEBUG, MsgUsersToCheck (Some "pioneer") 3 "default")]
              (world (mkDatabase [pioneer_badge 1] [mkAwardRow 1 1] [1; 2; 3])
                     (mkDatabase [] [] []) []))).
  - reflexivity.
  - reflexivity.
Defined.

(** ** The badge lifecycle *)

Lemma find_badge_own_slug s b d :
  find_badge (Some s) d = Some b → find_badge (Some (badge_slug b)) d = Some b.
Proof.
  intros H. pose proof H as H'. unfold find_badge in H'.
  apply find_some in H' as [_ Heq]. apply String.eqb_eq in Heq.
  rewrite Heq. exact H.
Qed.

Lemma find_not_taken s d :
  slug_taken s d = false →
  find (fun b => String.eqb (badge_slug b) s) (badge_table d) = None.
Proof.
  unfold slug_taken. induction (badge_table d) as [|r rows IH]; [reflexivity|].
  cbn [existsb find]. destruct (String.eqb (badge_slug r) s); [discriminate|].
  exact IH.
Qed.

Lemma find_app_None {A} (f : A → bool) l l' :
  find f l = None → find f (l ++ l') = find f l'.
Proof.
  induction l as [|x l IH]; [reflexivity|].
  cbn [find app]. destruct (f x); [discriminate | exact IH].
Qed.

(** What the insertion of a badge returns is what the table then holds
    under the slug of that badge. *)
Lemma find_badge_insert_badge sl kw d b d' :
  insert_badge sl kw d = Some (b, d') →
  find_badge (Some (badge_slug b)) d' = Some b.
Proof.
  unfold insert_badge.
  destruct (kw_name kw) as [n|]; [|discriminate].
  destruct (slug_taken _ d) eqn:Htaken; [discriminate|].
  intros [= <- <-]. unfold find_badge. cbn [badge_table].
  rewrite find_app_None by (apply find_not_taken, Htaken).
  cbn [find]. rewrite String.eqb_refl. reflexivity.
Qed.

(** A badge is inserted under the name given, with the slug to store. *)
Lemma insert_badge_Some sl kw d b d' :
  insert_badge sl kw d = Some (b, d') →
  ∃ n, kw_name kw = Some n
       ∧ badge_slug b = stored_slug sl n (kw_slug kw)
       ∧ slug_taken (badge_slug b) d = false.
Proof.
  unfold insert_badge.
  destruct (kw_name kw) as [n|]; [|discriminate].
  destruct (slug_taken _ d) eqn:Htaken; [discriminate|].
  intros [= <- <-]. exists n. split; [reflexivity|]. split; [reflexivity|].
  exact Htaken.
Qed.

(** The insertion fails for want of a name or on a slug that is taken. *)
Lemma insert_badge_None sl kw d :
  insert_badge sl kw d = None →
  kw_name kw = None
  ∨ ∃ n, kw_name kw = Some n
         ∧ slug_taken (stored_slug sl n (kw_slug kw)) d = true.
Proof.
  unfold insert_badge.
  destruct (kw_name kw) as [n|]; [|left; reflexivity].
  cbn [new_badge badge_slug].
  destruct (slug_taken _ d) eqn:Htaken; [|discriminate].
  intros _. right. exists n. split; [reflexivity | exact Htaken].
Qed.

(** A slug that is not blank is stored as it is. *)
Lemma stored_slug_given sl n s : s ≠ "" → stored_slug sl n (Some s) = s.
Proof.
  intros Hs. unfold stored_slug. cbn [from_option id].
  destruct (String.eqb_spec s ""); [contradiction | reflexivity].
Qed.

(** X7: in any world [create_badge] either raises [NotImplementedError]
    (no image, no badge yet) or returns a triple in which [failed] holds
    exactly when there is no badge, [created] and [failed] never hold
    together, a returned badge is the one the database holds under its
    slug, and nothing was written unless [created] holds. *)
Theorem create_badge_result_consistent self w :
  (∃ w', create_badge self w = (Raise NotImplementedError, w')
         ∧ image self = None ∧ only_read w w')
  ∨ (∃ b created failed w',
       create_badge self w = (Ret (b, created, failed), w')
       ∧ (failed = true ↔ b = None)
       ∧ (failed = true → created = false)
       ∧ (created = false → only_read w w')
       ∧ (∀ b0, b = Some b0 →
                find_badge (Some (badge_slug b0)) (primary w') = Some b0)).
Proof.
  rewrite create_badge_run. cbv zeta.
  assert (H1 : only_read w (after_round_trip w))
    by apply only_read_after_round_trip.
  assert (H2 : only_read w (after_round_trip (after_round_trip w))).
  { eapply only_read_trans; [exact H1 | apply only_read_after_round_trip]. }
  destruct (find_badge (slug self) (primary (after_round_trip w))) as [b|] eqn:Hb.
  - right. eexists _, _, _, _. split; [reflexivity|].
    split; [split; discriminate|]. split; [reflexivity|].
    split.
    + intros _. eapply only_read_trans; [exact H1 | apply only_read_add_log].
    + intros b0 [= <-]. cbn [add_log primary].
      destruct (slug self) as [s|]; [|discriminate].
      eapply find_badge_own_slug, Hb.
  - destruct (image self) as [img|] eqn:Himg.
    + right.
      destruct (insert_badge _ _ (primary (after_round_trip (after_round_trip w))))
        as [[b d]|] eqn:Hins.
      * eexists _, _, _, _. split; [reflexivity|].
        split; [split; discriminate|]. split; [discriminate|].
        split; [discriminate|].
        intros b0 [= <-]. cbn [add_log set_primary primary].
        eapply find_badge_insert_badge, Hins.
      * eexists _, _, _, _. split; [reflexivity|].
        split; [split; reflexivity|]. split; [reflexivity|].
        split; [|discriminate].
        intros _. eapply only_read_trans; [exact H2 | apply only_read_add_log].
    + left. eexists. split; [reflexivity|]. split; [reflexivity | exact H1].
Qed.

(** X8: [create_badge] is idempotent for a recipe that defines its slug
    (a blank slug does not: the badge is then stored under the slugified
    name).  Without concurrent writers, once a call has returned a badge,
    a second call returns the same badge with [created = False] and
    [failed = False] and only adds the log entry "already created". *)
Theorem create_badge_twice self w s b created failed w' :
  pending w = [] →
  slug self = Some s →
  s ≠ "" →
  create_badge self w = (Ret (Some b, created, failed), w') →
  create_badge self w'
  = (Ret (Some b, false, false), add_log (DEBUG, MsgAlreadyCreated (badge_slug b)) w').
Proof.
  intros Hquiet Hslug Hs Hrun.
  assert (H : pending w' = [] ∧ find_badge (slug self) (primary w') = Some b).
  { rewrite create_badge_run in Hrun. cbv zeta in Hrun.
    rewrite !after_round_trip_quiet in Hrun by assumption.
    destruct (find_badge (slug self) (primary w)) as [b1|] eqn:Hb.
    - injection Hrun as <- _ _ <-. split; [exact Hquiet | exact Hb].
    - destruct (image self) as [img|]; [|discriminate].
      destruct (insert_badge _ _ (primary w)) as [[b1 d]|] eqn:Hins; [|discriminate].
      injection Hrun as <- _ _ <-. split; [exact Hquiet|].
      cbn [add_log set_primary primary].
      pose proof (find_badge_insert_badge _ _ _ _ _ Hins) as Hfind.
      apply insert_badge_Some in Hins as (n & _ & Hstored & _).
      cbn [kw_slug] in Hstored.
      rewrite Hslug, stored_slug_given in Hstored by assumption.
      rewrite Hslug, <- Hstored. exact Hfind. }
  destruct H as [Hquiet' Hfind].
  rewrite create_badge_run. cbv zeta.
  rewrite after_round_trip_quiet, Hfind by assumption. reflexivity.
Qed.

Lemma create_badge_twice_witness :
  create_badge (pioneer DEFAULT_DB_ALIAS 2)
    (add_log (DEBUG, MsgCreated "pioneer")
       (world (mkDatabase [pioneer_badge 0] [] [1]) (mkDatabase [] [] []) []))
  = (Ret (Some (pioneer_badge 0), false, false),
     add_log (DEBUG, MsgAlreadyCreated "pioneer")
       (add_log (DEBUG, MsgCreated "pioneer")
          (world (mkDatabase [pioneer_badge 0] [] [1]) (mkDatabase [] [] []) []))).
Proof.
  apply (create_badge_twice (pioneer DEFAULT_DB_ALIAS 2)
           (world (mkDatabase [] [] [1]) (mkDatabase [] [] []) [])
           "pioneer" (pioneer_badge 0) true false).
  - reflexivity.
  - reflexivity.
  - discriminate.
  - reflexivity.
Defined.

(** With a blank slug the second call does not find the badge, which
    was stored under the slugified name, and fails on that slug. *)
Example create_badge_blank_slug_twice :
  create_badge
    {| name := Some "Early Bird"; slug := Some ""; description := None;
       db_read := DEFAULT_DB_ALIAS; max_awards_per_create := 2;
       image := Some "bird.png"; user_ids := None |}
    (world (mkDatabase [] [] []) (mkDatabase [] [] []) [])
  = (Ret (Some (mkBadge 1 "Early Bird" "early-bird" "" "bird.png" 0), true, false),
     add_log (DEBUG, MsgCreated "early-bird")
       (world (mkDatabase [mkBadge 1 "Early Bird" "early-bird" "" "bird.png" 0] [] [])
              (mkDatabase [] [] []) []))
  ∧ create_badge
      {| name := Some "Early Bird"; slug := Some ""; description := None;
         db_read := DEFAULT_DB_ALIAS; max_awards_per_create := 2;
         image := Some "bird.png"; user_ids := None |}
      (add_log (DEBUG, MsgCreated "early-bird")
         (world (mkDatabase [mkBadge 1 "Early Bird" "early-bird" "" "bird.png" 0] [] [])
                (mkDatabase [] [] []) []))
    = (Ret (None, false, true),
       add_log (DEBUG, MsgBadgeIntegrityError (Some ""))
         (add_log (DEBUG, MsgCreated "early-bird")
            (world (mkDatabase [mkBadge 1 "Early Bird" "early-bird" "" "bird.png" 0] [] [])
                   (mkDatabase [] [] []) []))).
Proof. split; reflexivity. Qed.

(** ** The denormalized count *)

Lemma awarded_users_save_badge b n d :
  awarded_users (set_users_count b n) (save_badge (set_users_count b n) d)
  = awarded_users b d.
Proof. reflexivity. Qed.

Lemma map_replace_pks b rows :
  map badge_pk (map (fun r => if badge_pk r =? badge_pk b then b else r) rows)
  = map badge_pk rows.
Proof.
  induction rows as [|r rows IH]; [reflexivity|].
  cbn [map]. rewrite IH. f_equal.
  destruct (badge_pk r =? badge_pk b) eqn:Heq; [|reflexivity].
  apply Z.eqb_eq in Heq. symmetry. exact Heq.
Qed.

Lemma save_badge_pks b d :
  existsb (fun r => badge_pk r =? badge_pk b) (badge_table d) = true →
  map badge_pk (badge_table (save_badge b d)) = map badge_pk (badge_table d).
Proof.
  intros Hex. unfold save_badge. cbn [badge_table]. rewrite Hex.
  apply map_replace_pks.
Qed.

Lemma find_badge_exists slug0 b d :
  find_badge slug0 d = Some b →
  existsb (fun r => badge_pk r =? badge_pk b) (badge_table d) = true.
Proof.
  destruct slug0 as [s|]; [|discriminate]. unfold find_badge. intros H.
  apply existsb_exists. exists b. apply find_some in H as [Hin _].
  split; [exact Hin | apply Z.eqb_refl].
Qed.

(** X9: the count sync is idempotent.  Without concurrent writers, once
    [update_badge_users_count] has returned a badge, the stored count of
    that badge is the live count, and a second call returns the same
    badge with [updated = False] and writes nothing. *)
Theorem update_badge_users_count_twice self w b updated w' :
  pending w = [] →
  update_badge_users_count self w = (Ret (TheBadge b, updated), w') →
  badge_users_count b = Z.of_nat (length (awarded_users b (primary w')))
  ∧ update_badge_users_count self w'
    = (Ret (TheBadge b, false),
       add_logs [(DEBUG, MsgSyncing (slug self));
                 (DEBUG, MsgUpToDate (slug self) (badge_users_count b))] w').
Proof.
  intros Hquiet Hrun.
  assert (H : pending w' = []
              ∧ find_badge (slug self) (primary w') = Some b
              ∧ badge_users_count b = Z.of_nat (length (awarded_users b (primary w')))).
  { rewrite update_badge_users_count_quiet in Hrun by assumption. cbv zeta in Hrun.
    destruct (find_badge (slug self) (primary w)) as [b0|] eqn:Hb; [|discriminate].
    destruct (badge_users_count b0 =? _) eqn:Heq.
    - injection Hrun as <- _ <-. apply Z.eqb_eq in Heq.
      split; [exact Hquiet|]. split; [exact Hb | exact Heq].
    - injection Hrun as <- _ <-. split; [exact Hquiet|].
      cbn [add_log set_primary primary]. split.
      + apply find_badge_save_badge, Hb.
      + rewrite awarded_users_save_badge. reflexivity. }
  destruct H as (Hquiet' & Hfind & Hcount). split; [exact Hcount|].
  rewrite update_badge_users_count_quiet by assumption. cbv zeta.
  rewrite Hfind, <- Hcount, Z.eqb_refl. reflexivity.
Qed.

Lemma update_badge_users_count_twice_witness :
  1 = Z.of_nat (length (awarded_users (pioneer_badge 1)
                          (mkDatabase [pioneer_badge 1] [mkAwardRow 7 1] [7])))
  ∧ update_badge_users_count (pioneer DEFAULT_DB_ALIAS 2)
      (add_logs [(DEBUG, MsgSyncing (Some "pioneer"));
                 (DEBUG, MsgUpdatedCount (Some "pioneer") 0 1)]
         (world (mkDatabase [pioneer_badge 1] [mkAwardRow 7 1] [7])
                (mkDatabase [] [] []) []))
    = (Ret (TheBadge (pioneer_badge 1), false),
       add_logs [(DEBUG, MsgSyncing (Some "pioneer"));
                 (DEBUG, MsgUpToDate (Some "pioneer") 1)]
         (add_logs [(DEBUG, MsgSyncing (Some "pioneer"));
                    (DEBUG, MsgUpdatedCount (Some "pioneer") 0 1)]
            (world (mkDatabase [pioneer_badge 1] [mkAwardRow 7 1] [7])
                   (mkDatabase [] [] []) []))).
Proof.
  apply (update_badge_users_count_twice (pioneer DEFAULT_DB_ALIAS 2)
           (world (mkDatabase [pioneer_badge 0] [mkAwardRow 7 1] [7])
                  (mkDatabase [] [] []) [])
           (pioneer_badge 1) true
           (add_logs [(DEBUG, MsgSyncing (Some "pioneer"));
                      (DEBUG, MsgUpdatedCount (Some "pioneer") 0 1)]
              (world (mkDatabase [pioneer_badge 1] [mkAwardRow 7 1] [7])
                     (mkDatabase [] [] []) []))).
  - reflexivity.
  - reflexivity.
Defined.

(** X10: [update_badge_users_count] never raises and touches no table
    but that of the badges, where no row is added or removed: without
    concurrent writers the awards, the users and the primary keys of the
    badges are the same after the call as before, and the badge found
    under the slug is as before but for its count. *)
Theorem update_badge_users_count_frame self w :
  pending w = [] →
  ∃ r w',
    update_badge_users_count self w = (Ret r, w')
    ∧ award_table (primary w') = award_table (primary w)
    ∧ user_table (primary w') = user_table (primary w)
    ∧ map badge_pk (badge_table (primary w')) = map badge_pk (badge_table (primary w))
    ∧ match find_badge (slug self) (primary w) with
      | Some b =>
          ∃ n, find_badge (slug self) (primary w') = Some (set_users_count b n)
      | None => find_badge (slug self) (primary w') = None
      end.
Proof.
  intros Hquiet. rewrite update_badge_users_count_quiet by assumption. cbv zeta.
  destruct (find_badge (slug self) (primary w)) as [b|] eqn:Hb.
  - destruct (badge_users_count b =? _).
    + eexists _, _. split; [reflexivity|].
      cbn [add_log primary]. rewrite Hb.
      split; [reflexivity|]. split; [reflexivity|]. split; [reflexivity|].
      exists (badge_users_count b). destruct b; reflexivity.
    + eexists _, _. split; [reflexivity|].
      cbn [add_log set_primary primary].
      split; [reflexivity|]. split; [reflexivity|]. split.
      * apply save_badge_pks. apply (find_badge_exists _ _ _ Hb).
      * eexists. apply find_badge_save_badge, Hb.
  - eexists _, _. split; [reflexivity|].
    cbn [add_log primary]. rewrite Hb. repeat split.
Qed.

Lemma update_badge_users_count_frame_witness :
  ∃ r w',
    update_badge_users_count (pioneer DEFAULT_DB_ALIAS 2)
      (world (mkDatabase [pioneer_badge 0] [mkAwardRow 7 1] [7]) (mkDatabase [] [] []) [])
    = (Ret r, w')
    ∧ award_table (primary w') = [mkAwardRow 7 1]
    ∧ user_table (primary w') = [7]
    ∧ map badge_pk (badge_table (primary w')) = [1]
    ∧ ∃ n, find_badge (Some "pioneer") (primary w')
           = Some (set_users_count (pioneer_badge 0) n).
Proof.
  apply (update_badge_users_count_frame (pioneer DEFAULT_DB_ALIAS 2)
           (world (mkDatabase [pioneer_badge 0] [mkAwardRow 7 1] [7])
                  (mkDatabase [] [] []) [])).
  reflexivity.
Defined.

(** ** Creation, with and without a race *)

Lemma slug_taken_find s d :
  slug_taken s d = true ↔ ∃ b, find_badge (Some s) d = Some b.
Proof.
  unfold slug_taken, find_badge.
  induction (badge_table d) as [|r rows IH]; cbn [existsb find].
  - split; [discriminate | intros [b [=]]].
  - destruct (String.eqb (badge_slug r) s); [|exact IH].
    split; [eauto | reflexivity].
Qed.

Lemma find_None_not_taken s d :
  find_badge (Some s) d = None → slug_taken s d = false.
Proof.
  intros H. destruct (slug_taken s d) eqn:Ht; [|reflexivity].
  apply slug_taken_find in Ht as [b Hb]. congruence.
Qed.

(** X11: without concurrent writers, [create_badge] of a recipe that
    defines its name, a slug that is not blank and its image cannot fail:
    it returns a badge under that slug with [failed = False], and
    [created] tells whether the badge was missing before the call. *)
Theorem create_badge_succeeds_sequentially self w n s img :
  pending w = [] →
  name self = Some n →
  slug self = Some s →
  s ≠ "" →
  image self = Some img →
  ∃ b w',
    create_badge self w
    = (Ret (Some b, negb (slug_taken s (primary w)), false), w')
    ∧ badge_slug b = s
    ∧ find_badge (Some s) (primary w') = Some b.
Proof.
  intros Hquiet Hname Hslug Hs Himg. rewrite create_badge_run. cbv zeta.
  rewrite !after_round_trip_quiet, Hslug, Himg, Hname by assumption.
  destruct (find_badge (Some s) (primary w)) as [b|] eqn:Hb.
  - assert (Ht : slug_taken s (primary w) = true)
      by (apply slug_taken_find; eauto).
    rewrite Ht. eexists _, _. split; [reflexivity|].
    pose proof Hb as Hb'. unfold find_badge in Hb'.
    apply find_some in Hb' as [_ Heq]. apply String.eqb_eq in Heq.
    split; [exact Heq | exact Hb].
  - pose proof (find_None_not_taken _ _ Hb) as Ht. rewrite Ht.
    unfold insert_badge, new_badge.
    cbn [kw_name kw_slug kw_image kw_description badge_slug].
    rewrite stored_slug_given, Ht by assumption.
    eexists _, _. split; [reflexivity|]. split; [reflexivity|].
    cbn [add_log set_primary primary]. unfold find_badge. cbn [badge_table].
    rewrite find_app_None by (apply find_not_taken, Ht).
    cbn [find badge_slug]. rewrite String.eqb_refl. reflexivity.
Qed.

Lemma create_badge_succeeds_sequentially_witness :
  ∃ b w',
    create_badge (pioneer DEFAULT_DB_ALIAS 2)
      (world (mkDatabase [] [] [1]) (mkDatabase [] [] []) [])
    = (Ret (Some b, negb (slug_taken "pioneer" (mkDatabase [] [] [1])), false), w')
    ∧ badge_slug b = "pioneer"
    ∧ find_badge (Some "pioneer") (primary w') = Some b.
Proof.
  apply (create_badge_succeeds_sequentially (pioneer DEFAULT_DB_ALIAS 2)
           (world (mkDatabase [] [] [1]) (mkDatabase [] [] []) [])
           "Pioneer" "pioneer" "pioneer.png").
  - reflexivity.
  - reflexivity.
  - reflexivity.
  - discriminate.
  - reflexivity.
Defined.

(** X12: a call of [create_badge] that lost a creation race is healed by
    calling again.  For a recipe that defines its name and a slug that is
    not blank, a call that returned [failed = True] leaves a database
    that holds a badge under the slug, and a further call, run without
    concurrent writers, returns that badge with [created = False] and
    [failed = False]. *)
Theorem create_badge_retry_after_failure self w n s b created w' :
  name self = Some n →
  slug self = Some s →
  s ≠ "" →
  create_badge self w = (Ret (b, created, true), w') →
  pending w' = [] →
  ∃ existing,
    find_badge (Some s) (primary w') = Some existing
    ∧ create_badge self w'
      = (Ret (Some existing, false, false),
         add_log (DEBUG, MsgAlreadyCreated (badge_slug existing)) w').
Proof.
  intros Hname Hslug Hs Hrun Hquiet.
  assert (H : ∃ existing, find_badge (Some s) (primary w') = Some existing).
  { rewrite create_badge_run in Hrun. cbv zeta in Hrun.
    destruct (find_badge (slug self) (primary (after_round_trip w)));
      [discriminate|].
    destruct (image self) as [img|]; [|discriminate].
    destruct (insert_badge _ _ _) as [[b1 d]|] eqn:Hins; [discriminate|].
    injection Hrun as _ _ <-. cbn [add_log primary].
    apply insert_badge_None in Hins as [Hnone | (n' & _ & Ht)].
    - cbn [kw_name] in Hnone. congruence.
    - cbn [kw_slug] in Ht.
      rewrite Hslug, stored_slug_given in Ht by assumption.
      apply slug_taken_find, Ht. }
  destruct H as (existing & Hfind). exists existing. split; [exact Hfind|].
  rewrite create_badge_run. cbv zeta.
  rewrite after_round_trip_quiet, Hslug, Hfind by assumption. reflexivity.
Qed.

Lemma create_badge_retry_after_failure_witness :
  ∃ existing,
    find_badge (Some "pioneer") (mkDatabase [other_pioneer_badge] [] [1]) = Some existing
    ∧ create_badge (pioneer DEFAULT_DB_ALIAS 2)
        (add_log (DEBUG, MsgBadgeIntegrityError (Some "pioneer"))
           (world (mkDatabase [other_pioneer_badge] [] [1]) (mkDatabase [] [] []) []))
      = (Ret (Some existing, false, false),
         add_log (DEBUG, MsgAlreadyCreated (badge_slug existing))
           (add_log (DEBUG, MsgBadgeIntegrityError (Some "pioneer"))
              (world (mkDatabase [other_pioneer_badge] [] [1])
                     (mkDatabase [] [] []) []))).
Proof.
  apply (create_badge_retry_after_failure (pioneer DEFAULT_DB_ALIAS 2)
           (world (mkDatabase [] [] [1]) (mkDatabase [] [] []) [[]; [other_pioneer]])
           "Pioneer" "pioneer" None false
           (add_log (DEBUG, MsgBadgeIntegrityError (Some "pioneer"))
              (world (mkDatabase [other_pioneer_badge] [] [1])
                     (mkDatabase [] [] []) []))).
  - reflexivity.
  - reflexivity.
  - discriminate.
  - reflexivity.
  - reflexivity.
Defined.

(** ** Which database the already-awarded ids come from *)

(** X13: what [get_already_awarded_user_ids] returns depends on the slug
    of the recipe and on the default database only: neither the alias in
    [db_read] nor the content of the databases behind the other aliases
    has any influence on it. *)
Theorem already_awarded_fetch_ignores_db_read self self' w r :
  slug self' = slug self →
  fst (get_already_awarded_user_ids self' (set_replicas r w))
  = fst (get_already_awarded_user_ids self w).
Proof.
  intros Hslug.
  unfold get_already_awarded_user_ids, bind. rewrite !badge_run.
  rewrite after_round_trip_set_replicas, Hslug. cbn [set_replicas primary].
  destruct (find_badge (slug self) (primary (after_round_trip w))) as [b|];
    [|reflexivity].
  rewrite !Badge_users_values_list_id_run.
  rewrite after_round_trip_set_replicas. reflexivity.
Qed.

Lemma already_awarded_fetch_ignores_db_read_witness :
  fst (get_already_awarded_user_ids (pioneer "replica" 2)
         (set_replicas (fun _ => mkDatabase [pioneer_badge 0] [] [1; 2; 3])
            (world (mkDatabase [pioneer_badge 1] [mkAwardRow 1 1] [1; 2])
                   (mkDatabase [] [] []) [])))
  = fst (get_already_awarded_user_ids (pioneer DEFAULT_DB_ALIAS 2)
           (world (mkDatabase [pioneer_badge 1] [mkAwardRow 1 1] [1; 2])
                  (mkDatabase [] [] []) [])).
Proof.
  apply (already_awarded_fetch_ignores_db_read (pioneer DEFAULT_DB_ALIAS 2)
           (pioneer "replica" 2)).
  reflexivity.
Defined.

Lemma replicas_after_round_trip w : replicas (after_round_trip w) = replicas w.
Proof. unfold after_round_trip, round_trip. destruct (pending w); reflexivity. Qed.

(** X14: with a [db_read] other than the default alias, the eligible ids
    that [get_current_user_ids] returns are read from the database behind
    that alias alone: the content of the default database, and whatever
    concurrent writers commit there, has no influence on them. *)
Theorem get_current_user_ids_reads_db_read self w d p :
  db_read self ≠ DEFAULT_DB_ALIAS →
  fst (get_current_user_ids self (set_pending p (set_primary d w)))
  = fst (get_current_user_ids self w).
Proof.
  intros Hne. unfold get_current_user_ids.
  destruct (user_ids self) as [qs|]; [|reflexivity].
  unfold bind. rewrite !QuerySet_fetch_run. cbn [fst logger_debug ret].
  assert (Hc : ∀ w0, connections (db_read self) w0 = replicas w0 (db_read self)).
  { intros w0. unfold connections.
    destruct (String.eqb (db_read self) DEFAULT_DB_ALIAS) eqn:Heq; [|reflexivity].
    apply String.eqb_eq in Heq. contradiction. }
  rewrite !Hc, !replicas_after_round_trip. reflexivity.
Qed.

Lemma get_current_user_ids_reads_db_read_witness :
  fst (get_current_user_ids (pioneer "replica" 2)
         (set_pending [[other_pioneer]]
            (set_primary (mkDatabase [] [] [])
               (world (mkDatabase [pioneer_badge 1] [mkAwardRow 1 1] [1; 2])
                      (mkDatabase [pioneer_badge 0] [] [1; 2; 3]) []))))
  = fst (get_current_user_ids (pioneer "replica" 2)
           (world (mkDatabase [pioneer_badge 1] [mkAwardRow 1 1] [1; 2])
                  (mkDatabase [pioneer_badge 0] [] [1; 2; 3]) [])).
Proof.
  apply (get_current_user_ids_reads_db_read (pioneer "replica" 2)).
  discriminate.
Defined.
